(** * wtop: the process-monitoring engine of [wtop.cpp]

    A shallow embedding of the sampling, rate, filter/sort and key-handling
    code of [wtop.cpp], and the properties of the specification proved (or
    refuted) on it.

    Conventions of the embedding:
    - [ULONGLONG] values are [Z] in [0, 2^64); every subtraction and addition
      of the source is followed by its wrap-around ([wrap64]);
    - [float] and [double] are IEEE 754 binary32 and binary64, modelled with
      the inductive specification of the Standard Library ([spec_float]),
      each operation rounding to nearest-even as the hardware does;
    - [std::map<DWORD, ULONGLONG>] is a [gmap Z Z]; [operator[]] on an absent
      key reads the value-initialised 0;
    - [std::wstring] is a list of code units ([list Z]);
    - what the operating system and the C runtime hand to the program (the
      process table, the time counters, the console input, [iswprint],
      [towlower], [std::sort]) is an input of the model. *)

From Stdlib Require Import ZArith QArith Bool List Lia Permutation Sorted.
From Stdlib Require Import Floats.SpecFloat.
From stdpp Require Import gmap list fin_maps.

Local Open Scope Z_scope.

(** ** Machine integers *)

Module Int.

Definition two64 : Z := 2 ^ 64.

(** Reduction of an [unsigned long long] result. *)
Definition wrap64 (z : Z) : Z := z mod two64.

Definition is_ull (z : Z) : Prop := 0 <= z < two64.

(** [wchar_t(ch)]: the conversion of an [int] to the 16-bit code unit of
    the platform. *)
Definition to_wchar (ch : Z) : Z := ch mod 2 ^ 16.

End Int.

(** ** IEEE 754 arithmetic of the source *)

Module Fp.

(** binary64, the [double] of the per-process rate. *)
Definition dprec : Z := 53.
Definition demax : Z := 1024.
(** binary32, the [float] of the system-wide rate. *)
Definition fprec : Z := 24.
Definition femax : Z := 128.

(** [double(n)] for an integer [n]: the nearest binary64 value. *)
Definition double_of_Z (n : Z) : spec_float := binary_normalize dprec demax n 0 false.
Definition dmul : spec_float -> spec_float -> spec_float := SFmul dprec demax.
Definition ddiv : spec_float -> spec_float -> spec_float := SFdiv dprec demax.

(** [float(n)] for an integer [n]: the nearest binary32 value. *)
Definition float_of_Z (n : Z) : spec_float := binary_normalize fprec femax n 0 false.
Definition fmul : spec_float -> spec_float -> spec_float := SFmul fprec femax.
Definition fdiv : spec_float -> spec_float -> spec_float := SFdiv fprec femax.

(** [a > b] on floating-point values (false as soon as one is a NaN). *)
Definition gt (a b : spec_float) : bool := SFltb b a.

Definition is_nan (x : spec_float) : bool :=
  match x with S754_nan => true | _ => false end.

(** The rational number a floating-point datum stands for; infinities and
    NaN stand for none. *)
Definition value (x : spec_float) : option Q :=
  match x with
  | S754_zero _ => Some 0%Q
  | S754_finite s m e =>
      let mag := (inject_Z (Z.pos m) * Qpower 2 e)%Q in
      Some (if s then Qopp mag else mag)
  | _ => None
  end.

(** [x] stands exactly for the rational [q]. *)
Definition represents (x : spec_float) (q : Q) : Prop :=
  match value x with Some v => Qeq v q | None => False end.

(** [x] is a zero, an infinity or a finite number of sign [sx] (so: no NaN). *)
Definition has_sign (sx : bool) (x : spec_float) : Prop :=
  match x with
  | S754_zero s | S754_infinity s | S754_finite s _ _ => s = sx
  | S754_nan => False
  end.

(** A key that orders the numbers as the comparison of [spec_float] does:
    class first, then exponent, then mantissa. *)
Definition rank (x : spec_float) : Z * Z * Z :=
  match x with
  | S754_zero _ => (0, 0, 0)
  | S754_infinity false => (2, 0, 0)
  | S754_infinity true => (-2, 0, 0)
  | S754_nan => (0, 0, 0)
  | S754_finite false m e => (1, e, Z.pos m)
  | S754_finite true m e => (-1, - e, - Z.pos m)
  end.

Definition lex_lt (a b : Z * Z * Z) : Prop :=
  let '(a1, a2, a3) := a in
  let '(b1, b2, b3) := b in
  a1 < b1 \/ (a1 = b1 /\ (a2 < b2 \/ (a2 = b2 /\ a3 < b3))).

End Fp.

(** ** Time stamps *)

Record FILETIME : Type := mkFILETIME {
  dwLowDateTime : Z;
  dwHighDateTime : Z
}.

(** [FileTimeToULL]: the two halves through the [ULARGE_INTEGER] union. *)
Definition FileTimeToULL (ft : FILETIME) : Z :=
  Z.lor (Z.shiftl (dwHighDateTime ft) 32) (dwLowDateTime ft).

(** The [FILETIME] holding a 64-bit count. *)
Definition filetime_of (n : Z) : FILETIME :=
  mkFILETIME (Z.land n (2 ^ 32 - 1)) (Z.shiftr n 32).

(** A zero-initialised [FILETIME] (static storage). *)
Definition filetime_zero : FILETIME := mkFILETIME 0 0.

(** ** Data model *)

(** [std::wstring]: a sequence of UTF-16 code units. *)
Definition wstring : Type := list Z.

Record ProcessInfo : Type := mkProcessInfo {
  pid : Z;
  name : wstring;
  memory : Z;
  cpu : spec_float
}.

(** The two global maps [lastProcTime] and [lastSysTime]. *)
Record Baselines : Type := mkBaselines {
  lastProcTime : gmap Z Z;
  lastSysTime : gmap Z Z
}.

(** The three function-local statics of [GetSystemCPU]. *)
Record SysPrev : Type := mkSysPrev {
  prevIdle : FILETIME;
  prevKernel : FILETIME;
  prevUser : FILETIME
}.

(** Static storage is zero-initialised. *)
Definition sysprev_init : SysPrev :=
  mkSysPrev filetime_zero filetime_zero filetime_zero.

(** ** What the operating system answers *)

(** [GetSystemTimes]: idle, kernel and user time. *)
Record SystemTimes : Type := mkSystemTimes {
  st_idle : FILETIME;
  st_kernel : FILETIME;
  st_user : FILETIME
}.

(** The two queries made on an opened process handle; [None] is the
    query failing. *)
Record ProcHandle : Type := mkProcHandle {
  h_memory : option Z;                      (* [pmc.WorkingSetSize] *)
  h_times : option (FILETIME * FILETIME)    (* kernel, user *)
}.

(** One entry of the process table together with the outcome of
    [OpenProcess] on it ([None]: a null handle). *)
Record ProcEntry : Type := mkProcEntry {
  th32ProcessID : Z;
  szExeFile : wstring;
  hProc : option ProcHandle
}.

(** The answers of one call of [GetProcesses]: the table snapshot
    ([None]: [INVALID_HANDLE_VALUE]) and the system times read right after;
    the return value of that [GetSystemTimes] is not looked at by the
    source, so its out-parameters are taken as they are. *)
Record ProcessTable : Type := mkProcessTable {
  pt_snapshot : option (list ProcEntry);
  pt_times : SystemTimes
}.

(** ** System-wide rate: [GetSystemCPU] *)

Import Int Fp.

(** [-1], the value returned when the times cannot be read. *)
Definition cpu_unavailable : spec_float := float_of_Z (-1).

Definition GetSystemCPU (prev : SysPrev) (os : option SystemTimes)
  : spec_float * SysPrev :=
  match os with
  | None => (cpu_unavailable, prev)
  | Some now =>
      let sys := wrap64 (wrap64 (FileTimeToULL (st_kernel now) + FileTimeToULL (st_user now))
                         - wrap64 (FileTimeToULL (prevKernel prev) + FileTimeToULL (prevUser prev))) in
      let idleDiff := wrap64 (FileTimeToULL (st_idle now) - FileTimeToULL (prevIdle prev)) in
      let prev' := mkSysPrev (st_idle now) (st_kernel now) (st_user now) in
      if sys =? 0 then (float_of_Z 0, prev')
      else (fdiv (fmul (float_of_Z (wrap64 (sys - idleDiff))) (float_of_Z 100))
                 (float_of_Z sys), prev')
  end.

(** ** Per-process rate and the process list: [GetProcesses] *)

(** [m[k]] reading a [std::map<DWORD, ULONGLONG>]: an absent key reads 0. *)
Definition map_get (m : gmap Z Z) (k : Z) : Z := default 0 (m !! k).

(** The body of [if (GetProcessTimes(...))]: the rate from the baselines
    of [id], then both baselines replaced. *)
Definition sample_times (nowSys : Z) (b : Baselines) (id : Z)
    (kernel user : FILETIME) : spec_float * Baselines :=
  let nowProc := wrap64 (FileTimeToULL kernel + FileTimeToULL user) in
  let lastP := map_get (lastProcTime b) id in
  let lastS := map_get (lastSysTime b) id in
  let cpu :=
    if (0 <? lastS) && (lastS <? nowSys)
    then ddiv (dmul (double_of_Z (wrap64 (nowProc - lastP))) (double_of_Z 100))
              (double_of_Z (wrap64 (nowSys - lastS)))
    else double_of_Z 0 in
  (cpu, mkBaselines (<[id := nowProc]> (lastProcTime b))
                    (<[id := nowSys]> (lastSysTime b))).

(** The body of the [do ... while] loop for one table entry. *)
Definition scan_entry (nowSys : Z) (b : Baselines) (pe : ProcEntry)
  : ProcessInfo * Baselines :=
  match hProc pe with
  | None => (mkProcessInfo (th32ProcessID pe) (szExeFile pe) 0 (double_of_Z 0), b)
  | Some h =>
      let mem := match h_memory h with Some ws => ws | None => 0 end in
      match h_times h with
      | None => (mkProcessInfo (th32ProcessID pe) (szExeFile pe) mem (double_of_Z 0), b)
      | Some (kernel, user) =>
          let '(cpu, b') := sample_times nowSys b (th32ProcessID pe) kernel user in
          (mkProcessInfo (th32ProcessID pe) (szExeFile pe) mem cpu, b')
      end
  end.

(** The whole loop: entries in table order, each pushed at the back. *)
Fixpoint scan (nowSys : Z) (b : Baselines) (entries : list ProcEntry)
  : list ProcessInfo * Baselines :=
  match entries with
  | [] => ([], b)
  | pe :: rest =>
      let '(p, b1) := scan_entry nowSys b pe in
      let '(ps, b2) := scan nowSys b1 rest in
      (p :: ps, b2)
  end.

(** The comparison handed to [std::sort]. *)
Definition by_key (sortByCpu : bool) (a b : ProcessInfo) : bool :=
  if sortByCpu then gt (cpu a) (cpu b) else memory b <? memory a.

(** The contract of [std::sort] on a comparison that is a strict weak
    ordering of the elements sorted: no element is compared before itself;
    the comparison is transitive; and so is "neither before the other". *)
Record strict_weak (comp : ProcessInfo -> ProcessInfo -> bool)
    (l : list ProcessInfo) : Prop := mk_strict_weak {
  sw_irrefl : forall a, In a l -> comp a a = false;
  sw_trans : forall a b c, In a l -> In b l -> In c l ->
      comp a b = true -> comp b c = true -> comp a c = true;
  sw_equiv : forall a b c, In a l -> In b l -> In c l ->
      comp a b = false -> comp b a = false ->
      comp b c = false -> comp c b = false ->
      comp a c = false /\ comp c a = false
}.

(** [l] is in the order of [comp]: no element is strictly before one that
    precedes it. *)
Definition ordered_by (comp : ProcessInfo -> ProcessInfo -> bool)
    (l : list ProcessInfo) : Prop :=
  StronglySorted (fun a b => comp b a = false) l.

(** [std::sort] of the C++ library: some function on lists; what the
    language promises of it is [sort_contract] below. *)
Class StdSort : Type := mkStdSort {
  std_sort : (ProcessInfo -> ProcessInfo -> bool) -> list ProcessInfo -> list ProcessInfo
}.

(** The contract of [std::sort]: it returns the elements it was given, and,
    when the comparison is a strict weak ordering of them, in the order of
    the comparison. Nothing is promised on the relative order of equivalent
    elements. *)
Definition sort_contract (srt : StdSort) : Prop :=
  (forall comp l, Permutation l (std_sort comp l)) /\
  (forall comp l, strict_weak comp l -> ordered_by comp (std_sort comp l)).

(** No rate in the list is a NaN. *)
Definition no_nan (l : list ProcessInfo) : Prop :=
  Forall (fun p => is_nan (cpu p) = false) l.

Section Sampling.
Context {srt : StdSort}.

(** [GetProcesses(list, sortByCpu)]: the new content of [list] and the
    baselines after the call. [list.clear()] comes first, so the previous
    content of [list] is no input. *)
Definition GetProcesses (b : Baselines) (os : ProcessTable) (sortByCpu : bool)
  : list ProcessInfo * Baselines :=
  match pt_snapshot os with
  | None => ([], b)
  | Some entries =>
      let nowSys := wrap64 (FileTimeToULL (st_kernel (pt_times os))
                            + FileTimeToULL (st_user (pt_times os))) in
      let '(l, b') := scan nowSys b entries in
      (std_sort (by_key sortByCpu) l, b')
  end.

End Sampling.

(** ** The C runtime: character classes *)

(** [towlower] and [iswprint] of the C library, in the locale the program
    runs in. *)
Class CLocale : Type := mkCLocale {
  towlower : Z -> Z;
  iswprint : Z -> bool
}.

(** Whatever the locale, the printable characters of ASCII (space to
    tilde) are printable. *)
Definition ascii_printable (loc : CLocale) : Prop :=
  forall c, 32 <= c <= 126 -> iswprint c = true.

(** ** Filtering: [MatchesFilter] and the filter loop of [main] *)

(** [needle] is read at the front of [hay]. *)
Fixpoint starts_with (needle hay : wstring) : bool :=
  match needle, hay with
  | [], _ => true
  | _ :: _, [] => false
  | c :: needle', d :: hay' => (c =? d) && starts_with needle' hay'
  end.

(** [hay.find(needle)], counting positions from [pos]; [None] is [npos]. *)
Fixpoint wfind (hay needle : wstring) (pos : nat) : option nat :=
  if starts_with needle hay then Some pos
  else match hay with
       | [] => None
       | _ :: hay' => wfind hay' needle (S pos)
       end.

Section Filtering.
Context {loc : CLocale}.

Definition MatchesFilter (name filter : wstring) : bool :=
  match filter with
  | [] => true
  | _ :: _ =>
      let lowerName := map towlower name in
      let lowerFilter := map towlower filter in
      match wfind lowerName lowerFilter 0 with
      | Some _ => true
      | None => false
      end
  end.

(** The loop of [main] that refills [filtered] from [allProcesses]. *)
Definition apply_filter (searchFilter : wstring) (allProcesses : list ProcessInfo)
  : list ProcessInfo :=
  List.filter (fun p => MatchesFilter (name p) searchFilter) allProcesses.

End Filtering.

(** ** Key handling *)

(** The locals of [main] that the keys act on. *)
Record View : Type := mkView {
  sortByCpu : bool;
  showHelp : bool;
  scroll : Z;
  searchMode : bool;
  searchFilter : wstring
}.

Definition view_init : View := mkView true false 0 false [].

(** Rows shown at once. *)
Definition page_size : Z := 15.

(** Key codes as [_getch] returns them. *)
Definition KEY_ESC : Z := 27.
Definition KEY_ENTER : Z := 13.       (* '\r' *)
Definition KEY_BACKSPACE : Z := 8.    (* '\b' *)
Definition KEY_TAB : Z := 9.
Definition KEY_SLASH : Z := 47.       (* '/' *)
Definition KEY_h : Z := 104.
Definition KEY_H : Z := 72.
Definition KEY_UP : Z := 72.          (* second code of an arrow key *)
Definition KEY_DOWN : Z := 80.

(** [searchFilter.pop_back()]. *)
Definition pop_back (s : wstring) : wstring := removelast s.

Section Keys.
Context {loc : CLocale}.

(** A key read while [searchMode] is set. *)
Definition search_key (v : View) (ch : Z) : View :=
  if ch =? KEY_ESC then
    mkView (sortByCpu v) (showHelp v) (scroll v) false []
  else if ch =? KEY_ENTER then
    mkView (sortByCpu v) (showHelp v) (scroll v) false (searchFilter v)
  else if ch =? KEY_BACKSPACE then
    match searchFilter v with
    | [] => v
    | _ :: _ => mkView (sortByCpu v) (showHelp v) (scroll v) (searchMode v)
                       (pop_back (searchFilter v))
    end
  else if iswprint ch then
    mkView (sortByCpu v) (showHelp v) (scroll v) (searchMode v)
           (searchFilter v ++ [to_wchar ch])
  else v.

(** The second code of an arrow key, read outside search mode;
    [nfiltered] is [int(filtered.size())]. *)
Definition arrow_key (nfiltered : Z) (v : View) (ch : Z) : View :=
  if showHelp v then v
  else
    let s1 := if (ch =? KEY_UP) && (0 <? scroll v) then scroll v - 1 else scroll v in
    let s2 := if (ch =? KEY_DOWN) && (s1 <? nfiltered - page_size) then s1 + 1 else s1 in
    mkView (sortByCpu v) (showHelp v) s2 (searchMode v) (searchFilter v).

(** Any other key read outside search mode. *)
Definition plain_key (v : View) (ch : Z) : View :=
  if ch =? KEY_TAB then
    mkView (negb (sortByCpu v)) (showHelp v) 0 (searchMode v) (searchFilter v)
  else if (ch =? KEY_h) || (ch =? KEY_H) then
    mkView (sortByCpu v) (negb (showHelp v)) (scroll v) (searchMode v) (searchFilter v)
  else if ch =? KEY_SLASH then
    mkView (sortByCpu v) (showHelp v) (scroll v) true []
  else v.

(** The [if (_kbhit())] block. [kbd] holds the codes waiting in the
    console, oldest first: [_kbhit()] is [kbd] not being empty and [_getch()]
    takes its head. The result is [None] when the second [_getch()] of an
    arrow key finds nothing to read and waits. *)
Definition poll_key (nfiltered : Z) (v : View) (kbd : list Z)
  : option (View * list Z) :=
  match kbd with
  | [] => Some (v, [])
  | ch :: kbd1 =>
      if searchMode v then Some (search_key v ch, kbd1)
      else if (ch =? 0) || (ch =? 224) then
        match kbd1 with
        | [] => None
        | ch2 :: kbd2 => Some (arrow_key nfiltered v ch2, kbd2)
        end
      else Some (plain_key v ch, kbd1)
  end.

End Keys.

(** ** One iteration of the loop of [main] *)

(** Everything that lives across iterations. *)
Record World : Type := mkWorld {
  view : View;
  allProcesses : list ProcessInfo;
  filtered : list ProcessInfo;
  baselines : Baselines;
  sysprev : SysPrev;
  console : list Z
}.

Definition world_init : World :=
  mkWorld view_init [] [] (mkBaselines ∅ ∅) sysprev_init [].

(** What happens outside the program around one iteration: the key codes
    that reached the console since the last poll, and the answers of the
    OS to the queries of this iteration. *)
Record Tick : Type := mkTick {
  typed : list Z;
  os_table : ProcessTable;
  os_times : option SystemTimes
}.

(** What one iteration puts on the screen (text layout and the memory
    line left out). *)
Inductive Frame : Type :=
| HelpFrame
| TableFrame (cpuUsage : spec_float) (sortMode : bool) (filterText : wstring)
             (prompt : bool) (rows : list ProcessInfo).

(** The rows printed: indices [scroll] to [scroll + 15], as far as
    [filtered] goes. *)
Definition visible_rows (scroll : Z) (filtered : list ProcessInfo) : list ProcessInfo :=
  if scroll <? 0 then []
  else firstn (Z.to_nat page_size) (skipn (Z.to_nat scroll) filtered).

Section Loop.
Context {loc : CLocale} {srt : StdSort}.

Definition cycle (w : World) (t : Tick) : option (World * Frame) :=
  match poll_key (Z.of_nat (length (filtered w))) (view w) (console w ++ typed t) with
  | None => None
  | Some (v, kbd) =>
      if showHelp v then
        Some (mkWorld v (allProcesses w) (filtered w) (baselines w) (sysprev w) kbd,
              HelpFrame)
      else
        let '(all, b) := GetProcesses (baselines w) (os_table t) (sortByCpu v) in
        let '(cpuUsage, sp) := GetSystemCPU (sysprev w) (os_times t) in
        let flt := apply_filter (searchFilter v) all in
        Some (mkWorld v all flt b sp kbd,
              TableFrame cpuUsage (sortByCpu v) (searchFilter v) (searchMode v)
                         (visible_rows (scroll v) flt))
  end.

(** Iterations in a row; [None] as soon as one of them waits for a key
    code that never comes. *)
Fixpoint run (w : World) (ts : list Tick) : option World :=
  match ts with
  | [] => Some w
  | t :: ts' =>
      match cycle w t with
      | None => None
      | Some (w', _) => run w' ts'
      end
  end.

End Loop.

(** ** Memory usage: [GetMemoryUsageMB] *)

(** [GlobalMemoryStatusEx]: total and available physical memory, in bytes. *)
Record MemoryStatus : Type := mkMemoryStatus {
  ullTotalPhys : Z;
  ullAvailPhys : Z
}.

(** [GetMemoryUsageMB(totalOut, availOut)]: the value returned, then the two
    out-parameters. The structure is zero-initialised and the return value of
    [GlobalMemoryStatusEx] is not looked at, so a failed query ([None])
    leaves both fields at 0. *)
Definition GetMemoryUsageMB (os : option MemoryStatus) : spec_float * Z * Z :=
  let mem := match os with Some m => m | None => mkMemoryStatus 0 0 end in
  (fdiv (float_of_Z (wrap64 (ullTotalPhys mem - ullAvailPhys mem)))
        (float_of_Z (1024 * 1024)),
   ullTotalPhys mem, ullAvailPhys mem).

(** ** Names for what a call of [GetProcesses] reads *)

(** The times of a table entry, when its handle opens and the query
    succeeds. *)
Definition entry_times (pe : ProcEntry) : option (FILETIME * FILETIME) :=
  match hProc pe with
  | Some h => h_times h
  | None => None
  end.

(** [s_now] of a call: the kernel+user time read by [GetProcesses]. *)
Definition table_now (os : ProcessTable) : Z :=
  wrap64 (FileTimeToULL (st_kernel (pt_times os)) + FileTimeToULL (st_user (pt_times os))).

(** [c_now] of a process: its kernel+user time. *)
Definition proc_now (kernel user : FILETIME) : Z :=
  wrap64 (FileTimeToULL kernel + FileTimeToULL user).

(** The identifiers of the entries whose times can be read. *)
Definition timed_ids (entries : list ProcEntry) : gset Z :=
  list_to_set (map th32ProcessID
                   (List.filter (fun pe => match entry_times pe with
                                           | Some _ => true
                                           | None => false
                                           end) entries)).

(** ** Runs and call sequences *)

(** The states after each iteration of a run, as far as it goes. *)
Fixpoint worlds {loc : CLocale} {srt : StdSort} (w : World) (ts : list Tick)
  : list World :=
  match ts with
  | [] => []
  | t :: ts' =>
      match cycle w t with
      | None => []
      | Some (w', _) => w' :: worlds w' ts'
      end
  end.

(** [GetSystemCPU] called once per answer of the OS, in a row: the values
    returned and the statics after the last call. *)
Fixpoint sys_calls (prev : SysPrev) (answers : list (option SystemTimes))
  : list spec_float * SysPrev :=
  match answers with
  | [] => ([], prev)
  | a :: rest =>
      let '(r, p1) := GetSystemCPU prev a in
      let '(rs, p2) := sys_calls p1 rest in
      (r :: rs, p2)
  end.

(** A tick in which nothing is typed. *)
Definition idle_tick (t : Tick) : Tick := mkTick [] (os_table t) (os_times t).

(** ** Runnable instances of the runtime *)

(** The "C" locale on ASCII: [towlower] lowers A-Z, [iswprint] holds from
    space to tilde. *)
Definition ascii_towlower (c : Z) : Z :=
  if (65 <=? c) && (c <=? 90) then c + 32 else c.

Definition ascii_iswprint (c : Z) : bool := (32 <=? c) && (c <=? 126).

(** A stable insertion sort: one function that meets the contract of
    [std::sort]. *)
Fixpoint insert_by (comp : ProcessInfo -> ProcessInfo -> bool) (x : ProcessInfo)
    (l : list ProcessInfo) : list ProcessInfo :=
  match l with
  | [] => [x]
  | y :: l' => if comp y x then y :: insert_by comp x l' else x :: y :: l'
  end.

Definition insertion_sort (comp : ProcessInfo -> ProcessInfo -> bool)
    (l : list ProcessInfo) : list ProcessInfo :=
  fold_right (insert_by comp) [] l.

Definition insertion_std_sort : StdSort := mkStdSort insertion_sort.

Definition ascii_locale : CLocale := mkCLocale ascii_towlower ascii_iswprint.

(** [std::sort] once more: the insertion sort run on the reversed list,
    which orders ties the other way round. *)
Definition reversing_std_sort : StdSort :=
  mkStdSort (fun comp l => insertion_sort comp (rev l)).


(** ** The specification's own words, for comparison with the code *)

(** "Its name contains the filter text as a case-insensitive substring":
    some stretch of the name reads like the text once case is folded. *)
Definition contains_ci {loc : CLocale} (name text : wstring) : Prop :=
  exists pre post, map towlower name = pre ++ map towlower text ++ post.

(** The per-process rate as the specification words it, on the rationals:
    [100 * (c_now - c_prev) / (s_now - s_prev)] when a baseline exists and
    [s_now > s_prev], and 0 otherwise. *)
Definition spec_rate (baseline : option (Z * Z)) (c_now s_now : Z) : Q :=
  match baseline with
  | Some (c_prev, s_prev) =>
      if s_prev <? s_now
      then (100 * inject_Z (c_now - c_prev) / inject_Z (s_now - s_prev))%Q
      else 0%Q
  | None => 0%Q
  end.

(** The baseline recorded for an identifier, when there is one. *)
Definition baseline_of (b : Baselines) (id : Z) : option (Z * Z) :=
  match lastProcTime b !! id, lastSysTime b !! id with
  | Some c_prev, Some s_prev => Some (c_prev, s_prev)
  | _, _ => None
  end.

(** The scroll range of the specification: [0, max(0, filteredCount - pageSize)]. *)
Definition scroll_in_range (scroll : Z) (filteredCount : Z) : Prop :=
  0 <= scroll <= Z.max 0 (filteredCount - page_size).

(** The rate formula as the source evaluates it: binary64 conversion of
    both differences, one rounded product, one rounded quotient. *)
Definition rate_formula (c_now c_prev s_now s_prev : Z) : spec_float :=
  ddiv (dmul (double_of_Z (c_now - c_prev)) (double_of_Z 100))
       (double_of_Z (s_now - s_prev)).

(** The same for the system-wide rate, in binary32. *)
Definition sys_formula (busy idle : Z) : spec_float :=
  fdiv (fmul (float_of_Z (wrap64 (busy - idle))) (float_of_Z 100)) (float_of_Z busy).

(** Two baseline states that record the same for [id]. *)
Definition same_at (id : Z) (b b' : Baselines) : Prop :=
  lastProcTime b !! id = lastProcTime b' !! id /\
  lastSysTime b !! id = lastSysTime b' !! id.

(** [GetSystemTimes] answering three 64-bit counts. *)
Definition system_times (idle kernel user : Z) : SystemTimes :=
  mkSystemTimes (filetime_of idle) (filetime_of kernel) (filetime_of user).

(** "Descending CPU%": no record has a smaller rate than one after it. *)
Definition descending_cpu (l : list ProcessInfo) : Prop :=
  StronglySorted (fun a b => SFleb (cpu b) (cpu a) = true) l.

(** "Descending memory". *)
Definition descending_memory (l : list ProcessInfo) : Prop :=
  StronglySorted (fun a b => memory b <= memory a) l.

(** A system-time baseline is recorded exactly for the identifiers that
    have a CPU-time baseline. *)
Definition baselines_paired (b : Baselines) : Prop :=
  dom (lastProcTime b) = dom (lastSysTime b).

(** What every iteration keeps: an offset that is not negative, and
    baselines that come in pairs. *)
Definition loop_invariant (w : World) : Prop :=
  0 <= scroll (view w) /\ baselines_paired (baselines w).

(** ** Sample inputs *)

(** One process called "a" with 4096 bytes, readable times. *)
Definition one_process_table : ProcessTable :=
  mkProcessTable
    (Some [mkProcEntry 4 [97] (Some (mkProcHandle (Some 4096)
                                       (Some (filetime_of 10, filetime_of 20))))])
    (system_times 900 300 200).

(** A table that cannot be opened. *)
Definition no_process_table : ProcessTable :=
  mkProcessTable None (system_times 950 330 220).

(** A tick in which the one key code [ch] arrives. *)
Definition press (ch : Z) (t : Tick) : Tick :=
  mkTick [ch] (os_table t) (os_times t).

(** A tick in which an arrow key (prefix 224, then [code]) arrives. *)
Definition press_arrow (code : Z) (t : Tick) : Tick :=
  mkTick [224; code] (os_table t) (os_times t).

(** A tick in which nothing is typed, or an arrow key is. *)
Definition quiet (t : Tick) : Prop :=
  typed t = [] \/ exists code, typed t = [0; code] \/ typed t = [224; code].

(** Seventeen processes, all called "p" but the last, called "q"; none can
    be opened. *)
Definition seventeen_table : ProcessTable :=
  mkProcessTable
    (Some (map (fun i => mkProcEntry i (if i =? 17 then [113] else [112]) None)
               [1; 2; 3; 4; 5; 6; 7; 8; 9; 10; 11; 12; 13; 14; 15; 16; 17]))
    (system_times 900 300 200).

Definition seventeen_tick : Tick :=
  mkTick [] seventeen_table (Some (system_times 900 300 200)).

(** The keys of the scenario: nothing, Down, Down, [/], [q], [Enter]. *)
Definition shrinking_script : list Tick :=
  [seventeen_tick; press_arrow KEY_DOWN seventeen_tick; press_arrow KEY_DOWN seventeen_tick;
   press KEY_SLASH seventeen_tick; press 113 seventeen_tick; press KEY_ENTER seventeen_tick].

(** A table entry whose handle opens and whose queries answer. *)
Definition timed_entry (id : Z) (nm : wstring) (mem kernel user : Z) : ProcEntry :=
  mkProcEntry id nm
    (Some (mkProcHandle (Some mem) (Some (filetime_of kernel, filetime_of user)))).

(** Two tables a while apart: process 4 is read in both, process 8 cannot
    be opened. *)
Definition table_early : ProcessTable :=
  mkProcessTable (Some [timed_entry 4 [97] 4096 10 20; mkProcEntry 8 [98] None])
                 (system_times 900 300 200).

Definition table_late : ProcessTable :=
  mkProcessTable (Some [timed_entry 4 [97] 8192 40 50; mkProcEntry 8 [98] None])
                 (system_times 1900 700 300).

(** A view in search mode with the text "a". *)
Definition searching_view : View := mkView true false 0 true [97].

Definition searching_world : World :=
  mkWorld searching_view [] [] (mkBaselines ∅ ∅) sysprev_init [].

(** The initial state with the help screen up. *)
Definition help_world : World :=
  mkWorld (mkView true true 0 false []) [] [] (mkBaselines ∅ ∅) sysprev_init [].

(** The state after one iteration on the seventeen processes. *)
Definition seventeen_world : World :=
  match @cycle ascii_locale insertion_std_sort world_init seventeen_tick with
  | Some (w, _) => w
  | None => world_init
  end.

(** The toggle scenario: two processes, sampled once before ([toggle_before])
    and then found unchanged at every later iteration ([toggle_snapshot]).
    Between the two samples process 1 used 10 units of CPU time and process 2
    used 60, while the system used 100; process 1 holds the more memory. *)
Definition toggle_before : ProcessTable :=
  mkProcessTable (Some [timed_entry 1 [97] 300 40 50; timed_entry 2 [98] 100 60 40])
                 (system_times 700 250 150).

Definition toggle_snapshot : ProcessTable :=
  mkProcessTable (Some [timed_entry 1 [97] 300 45 55; timed_entry 2 [98] 100 100 60])
                 (system_times 760 300 200).

Definition toggle_before_tick : Tick :=
  mkTick [] toggle_before (Some (system_times 700 250 150)).

Definition toggle_tick : Tick :=
  mkTick [] toggle_snapshot (Some (system_times 760 300 200)).

(** The state once [toggle_before] has been sampled. *)
Definition toggle_world (loc : CLocale) (srt : StdSort) : World :=
  default world_init (@run loc srt world_init [toggle_before_tick]).


(** Twenty records, numbered 1 to 20. *)
Definition twenty_records : list ProcessInfo :=
  map (fun i => mkProcessInfo i [112] 0 (S754_zero false))
      [1; 2; 3; 4; 5; 6; 7; 8; 9; 10; 11; 12; 13; 14; 15; 16; 17; 18; 19; 20].

(** * Properties *)

(** ** Machine integers *)

Section IntFacts.

Lemma wrap64_small z : is_ull z -> wrap64 z = z.
Proof. unfold is_ull, wrap64. intros H. apply Z.mod_small. exact H. Qed.

Lemma wrap64_range z : is_ull (wrap64 z).
Proof. unfold is_ull, wrap64, two64. apply Z.mod_pos_bound. lia. Qed.

Lemma wrap64_sub_ge a b : 0 <= b -> b <= a -> a < two64 -> wrap64 (a - b) = a - b.
Proof. intros Hb Hle Ha. apply wrap64_small. unfold is_ull. lia. Qed.

Lemma wrap64_sub_lt a b :
  is_ull a -> is_ull b -> a < b -> wrap64 (a - b) = two64 + a - b.
Proof.
  unfold is_ull, wrap64. intros Ha Hb Hlt.
  replace (a - b) with ((two64 + a - b) + (-1) * two64) by ring.
  rewrite Z.mod_add by (unfold two64; lia).
  apply Z.mod_small. lia.
Qed.

Lemma FileTimeToULL_zero : FileTimeToULL filetime_zero = 0.
Proof. reflexivity. Qed.

(** [filetime_of] builds the time stamp of a 64-bit count. *)
Lemma FileTimeToULL_filetime_of n : 0 <= n -> FileTimeToULL (filetime_of n) = n.
Proof.
  intros Hn. unfold FileTimeToULL, filetime_of. simpl.
  apply Z.bits_inj'. intros k Hk.
  rewrite Z.lor_spec, Z.land_spec, Z.shiftl_spec by lia.
  change (2 ^ 32 - 1) with (Z.ones 32).
  destruct (Z.lt_ge_cases k 32) as [Hlt|Hge].
  - rewrite Z.testbit_neg_r by lia. rewrite Z.ones_spec_low by lia.
    simpl. apply andb_true_r.
  - rewrite Z.shiftr_spec by lia. rewrite Z.ones_spec_high by lia.
    rewrite andb_false_r, orb_false_r. f_equal. lia.
Qed.

End IntFacts.

(** ** Floating-point rounding *)

Section RoundFacts.
Variables prec emax : Z.
Hypothesis Hprec : 0 < prec.
Hypothesis Hemax : prec < emax.

Lemma digits2_pos_size p : digits2_pos p = Pos.size p.
Proof. induction p; simpl; congruence. Qed.

Lemma Zdigits2_bounds x : 0 < x -> 2 ^ (Zdigits2 x - 1) <= x < 2 ^ Zdigits2 x.
Proof.
  destruct x as [|p|p]; try lia. intros _. simpl Zdigits2.
  rewrite digits2_pos_size.
  pose proof (Pos.size_gt p) as Hgt. pose proof (Pos.size_le p) as Hle.
  apply Pos2Z.pos_lt_pos in Hgt. apply Pos2Z.pos_le_pos in Hle.
  rewrite Pos2Z.inj_pow in Hgt, Hle.
  replace (Z.pos (Pos.size p)) with (Z.succ (Z.pos (Pos.size p) - 1)) in Hle at 1 by lia.
  rewrite Z.pow_succ_r in Hle by lia.
  split; [|exact Hgt]. change (Z.pos p~0) with (2 * Z.pos p) in Hle. lia.
Qed.

Lemma Zdigits2_pos x : 0 < x -> 0 < Zdigits2 x.
Proof. destruct x; simpl; lia. Qed.

Lemma Zdigits2_le x k : 0 < x -> 0 <= k -> x < 2 ^ k -> Zdigits2 x <= k.
Proof.
  intros Hx Hk Hlt. pose proof (Zdigits2_bounds x Hx) as [Hlo _].
  destruct (Z_le_gt_dec (Zdigits2 x) k) as [|Hgt]; [assumption|].
  assert (2 ^ k <= 2 ^ (Zdigits2 x - 1)) by (apply Z.pow_le_mono_r; lia). lia.
Qed.

Lemma shr_1_m mrs : 0 <= shr_m mrs -> shr_m (shr_1 mrs) = shr_m mrs / 2.
Proof.
  destruct mrs as [m r s]. simpl. intros Hm.
  destruct m as [|p|p]; try lia; [reflexivity|].
  destruct p as [p|p|]; simpl.
  - rewrite Pos2Z.inj_xI. apply Z.div_unique with (r := 1); lia.
  - rewrite Pos2Z.inj_xO. apply Z.div_unique with (r := 0); lia.
  - reflexivity.
Qed.

Lemma pow2_xI p : 2 ^ Z.pos p~1 = 2 * (2 ^ Z.pos p * 2 ^ Z.pos p).
Proof.
  assert (H : Z.pos p~1 = Z.pos p + Z.pos p + 1) by lia.
  rewrite H, !Z.pow_add_r, Z.pow_1_r by lia. ring.
Qed.

Lemma pow2_xO p : 2 ^ Z.pos p~0 = 2 ^ Z.pos p * 2 ^ Z.pos p.
Proof.
  assert (H : Z.pos p~0 = Z.pos p + Z.pos p) by lia.
  rewrite H, Z.pow_add_r by lia. reflexivity.
Qed.

Lemma iter_shr_1_m p mrs :
  0 <= shr_m mrs -> shr_m (SpecFloat.iter_pos shr_1 p mrs) = shr_m mrs / 2 ^ Z.pos p.
Proof.
  revert mrs. induction p as [p IH|p IH|]; intros mrs Hm; simpl SpecFloat.iter_pos.
  - assert (H1 : 0 <= shr_m (shr_1 mrs)) by (rewrite shr_1_m by lia; apply Z.div_pos; lia).
    assert (H2 : 0 <= shr_m (SpecFloat.iter_pos shr_1 p (shr_1 mrs)))
      by (rewrite IH by lia; apply Z.div_pos; lia).
    rewrite IH, IH, shr_1_m by lia.
    rewrite !Z.div_div by lia. rewrite pow2_xI. f_equal; ring.
  - assert (H2 : 0 <= shr_m (SpecFloat.iter_pos shr_1 p mrs))
      by (rewrite IH by lia; apply Z.div_pos; lia).
    rewrite IH, IH by lia. rewrite Z.div_div by lia. rewrite pow2_xO. reflexivity.
  - rewrite shr_1_m by lia. reflexivity.
Qed.

(** Without underflow, [shr_fexp] keeps a positive mantissa positive and
    brings it under [prec] digits. *)
Lemma shr_fexp_pos x e l :
  0 < x -> SpecFloat.emin prec emax <= Zdigits2 x + e - prec ->
  0 < shr_m (fst (shr_fexp prec emax x e l)) < 2 ^ prec /\
  snd (shr_fexp prec emax x e l) = e + Z.max 0 (Zdigits2 x - prec).
Proof.
  intros Hx Hmin. unfold shr_fexp, fexp.
  rewrite Z.max_l by lia.
  pose proof (Zdigits2_bounds x Hx) as [Hlo Hhi].
  pose proof (Zdigits2_pos x Hx) as Hd.
  assert (Hm : shr_m (shr_record_of_loc x l) = x) by (destruct l as [|[]]; reflexivity).
  replace (Zdigits2 x + e - prec - e) with (Zdigits2 x - prec) by lia.
  destruct (Zdigits2 x - prec) as [|n|n] eqn:En; simpl shr; simpl fst; simpl snd.
  - rewrite Hm. split; [|lia]. split; [lia|].
    replace prec with (Zdigits2 x) by lia. exact Hhi.
  - rewrite iter_shr_1_m by lia. rewrite Hm. split; [|lia].
    assert (Hsplit : Zdigits2 x - 1 = (prec - 1) + Z.pos n) by lia.
    assert (Hsplit' : Zdigits2 x = prec + Z.pos n) by lia.
    rewrite Hsplit, Z.pow_add_r in Hlo by lia.
    rewrite Hsplit', Z.pow_add_r in Hhi by lia.
    assert (Hp : 0 < 2 ^ Z.pos n) by (apply Z.pow_pos_nonneg; lia).
    split.
    + apply Z.lt_le_trans with (2 ^ (prec - 1)); [apply Z.pow_pos_nonneg; lia|].
      apply Z.div_le_lower_bound; lia.
    + apply Z.div_lt_upper_bound; lia.
  - rewrite Hm. split; [|lia]. split; [lia|].
    apply Z.lt_le_trans with (2 ^ Zdigits2 x); [exact Hhi|].
    apply Z.pow_le_mono_r; lia.
Qed.

Lemma round_nearest_even_bounds m l :
  m <= round_nearest_even m l <= m + 1.
Proof. destruct l as [|[]]; simpl; try lia. destruct (Z.even m); lia. Qed.

(** Rounding a positive mantissa that neither underflows nor overflows
    gives a finite number of the same sign. *)
Lemma binary_round_aux_finite sx mx ex lx :
  0 < mx ->
  SpecFloat.emin prec emax <= 1 + ex - prec ->
  ex + Z.max 0 (Zdigits2 mx - prec) + 1 <= emax - prec ->
  exists m e, binary_round_aux prec emax sx mx ex lx = S754_finite sx m e.
Proof.
  intros Hmx Hmin Hmax. unfold binary_round_aux.
  pose proof (Zdigits2_pos mx Hmx) as Hd.
  destruct (shr_fexp_pos mx ex lx Hmx ltac:(lia)) as [[H1lo H1hi] H1e].
  destruct (shr_fexp prec emax mx ex lx) as [mrs1 e1]. simpl in H1lo, H1hi, H1e.
  pose proof (round_nearest_even_bounds (shr_m mrs1) (loc_of_shr_record mrs1)) as Hr.
  set (q := round_nearest_even (shr_m mrs1) (loc_of_shr_record mrs1)) in *.
  assert (Hq : 0 < q) by lia.
  pose proof (Zdigits2_pos q Hq) as Hdq.
  assert (Hdq' : Zdigits2 q <= prec + 1).
  { apply Zdigits2_le; [lia|lia|]. rewrite Z.pow_add_r, Z.pow_1_r by lia. lia. }
  destruct (shr_fexp_pos q e1 loc_Exact Hq ltac:(lia)) as [[H2lo H2hi] H2e].
  destruct (shr_fexp prec emax q e1 loc_Exact) as [mrs2 e2]. simpl in H2lo, H2hi, H2e.
  destruct (shr_m mrs2) as [|m2|m2]; try lia.
  assert (He2 : (e2 <=? emax - prec) = true) by (apply Z.leb_le; lia).
  rewrite He2. eauto.
Qed.

(** Rounding never makes a NaN out of a mantissa that is not negative,
    and the sign is the one given. *)
Lemma shr_nonneg mrs e n : 0 <= shr_m mrs -> 0 <= shr_m (fst (shr mrs e n)).
Proof.
  intros Hm. destruct n; simpl; try assumption.
  rewrite iter_shr_1_m by assumption. apply Z.div_pos; [assumption|].
  apply Z.pow_pos_nonneg; lia.
Qed.

Lemma binary_round_aux_sign sx mx ex lx :
  0 <= mx -> has_sign sx (binary_round_aux prec emax sx mx ex lx).
Proof.
  intros Hmx. unfold binary_round_aux, shr_fexp.
  assert (Hm : shr_m (shr_record_of_loc mx lx) = mx) by (destruct lx as [|[]]; reflexivity).
  pose proof (shr_nonneg (shr_record_of_loc mx lx) ex
                (fexp prec emax (Zdigits2 mx + ex) - ex) ltac:(lia)) as H1.
  destruct (shr (shr_record_of_loc mx lx) ex _) as [mrs1 e1]. simpl in H1.
  pose proof (round_nearest_even_bounds (shr_m mrs1) (loc_of_shr_record mrs1)) as Hr.
  set (q := round_nearest_even (shr_m mrs1) (loc_of_shr_record mrs1)) in *.
  pose proof (shr_nonneg (shr_record_of_loc q loc_Exact) e1
                (fexp prec emax (Zdigits2 q + e1) - e1) ltac:(simpl; lia)) as H2.
  destruct (shr (shr_record_of_loc q loc_Exact) e1 _) as [mrs2 e2]. simpl in H2.
  destruct (shr_m mrs2); try lia; simpl; [reflexivity|].
  destruct (e2 <=? emax - prec); reflexivity.
Qed.

Lemma digits2_pos_iter_xO m k :
  digits2_pos (Pos.iter xO m k) = (digits2_pos m + k)%positive.
Proof.
  induction k as [|k IH] using Pos.peano_ind.
  - simpl. lia.
  - rewrite Pos.iter_succ. simpl. rewrite IH. lia.
Qed.

(** Converting a positive integer that is below [2 ^ (emax - 1)] gives a
    finite, non-zero number. *)
Lemma binary_round_finite sx m :
  Z.pos (digits2_pos m) < emax ->
  exists m' e', binary_round prec emax sx m 0 = S754_finite sx m' e'.
Proof.
  intros Hd. unfold binary_round, shl_align, fexp.
  assert (Hemin : SpecFloat.emin prec emax = 3 - emax - prec) by reflexivity.
  rewrite Z.max_l by lia.
  replace (Z.pos (digits2_pos m) + 0 - prec - 0) with (Z.pos (digits2_pos m) - prec) by lia.
  destruct (Z.pos (digits2_pos m) - prec) as [|k|k] eqn:Ek.
  - apply binary_round_aux_finite; simpl Zdigits2; lia.
  - apply binary_round_aux_finite; simpl Zdigits2; lia.
  - apply binary_round_aux_finite; simpl Zdigits2;
      rewrite ?digits2_pos_iter_xO, ?Pos2Z.inj_add; lia.
Qed.

Lemma binary_normalize_finite z :
  0 < z -> Zdigits2 z < emax ->
  exists m e, binary_normalize prec emax z 0 false = S754_finite false m e.
Proof.
  intros Hz Hd. destruct z as [|p|p]; try lia.
  simpl. apply binary_round_finite. exact Hd.
Qed.

Lemma binary_normalize_sign z :
  0 <= z -> has_sign false (binary_normalize prec emax z 0 false).
Proof.
  intros Hz. destruct z as [|p|p]; try lia; simpl; [reflexivity|].
  unfold binary_round. destruct (shl_align p 0 _) as [mz ez].
  apply binary_round_aux_sign. lia.
Qed.

Lemma SFmul_sign x y sx sy :
  has_sign sx x -> has_sign sy y -> (exists m e, y = S754_finite sy m e) ->
  has_sign (xorb sx sy) (SFmul prec emax x y).
Proof.
  intros Hx Hy (my & ey & ->).
  destruct x as [s|s| |s mx ex]; simpl in *; subst; try reflexivity; try contradiction.
  apply binary_round_aux_sign. lia.
Qed.

Lemma SFdiv_sign x y sx sy :
  has_sign sx x -> (exists m e, y = S754_finite sy m e) ->
  has_sign (xorb sx sy) (SFdiv prec emax x y).
Proof.
  intros Hx (my & ey & ->).
  destruct x as [s|s| |s mx ex]; simpl in *; subst; try reflexivity; try contradiction.
  unfold SFdiv_core_binary.
  set (m' := match _ - _ with Z0 => Z.pos mx | Z.pos _ => _ | Z.neg _ => 0 end).
  assert (Hm' : 0 <= m').
  { subst m'. destruct (_ - _); try lia. apply Z.shiftl_nonneg. lia. }
  pose proof (Z.div_pos m' (Z.pos my) Hm' ltac:(lia)) as Hq.
  unfold Z.div in Hq. destruct (Z.div_eucl m' (Z.pos my)) as [q r]. simpl in Hq.
  apply binary_round_aux_sign. exact Hq.
Qed.

Lemma has_sign_not_nan sx x : has_sign sx x -> is_nan x = false.
Proof. destruct x; simpl; [reflexivity|reflexivity|contradiction|reflexivity]. Qed.

End RoundFacts.

Lemma Zdigits2_ull z : 0 < z -> z < two64 -> Zdigits2 z <= 64.
Proof. intros Hz Hlt. apply Zdigits2_le; [assumption|lia|exact Hlt]. Qed.

Lemma double_of_Z_finite z :
  0 < z < two64 -> exists m e, double_of_Z z = S754_finite false m e.
Proof.
  intros [Hz Hlt]. apply binary_normalize_finite; unfold dprec, demax; try lia.
  pose proof (Zdigits2_ull z Hz Hlt). lia.
Qed.

Lemma float_of_Z_finite z :
  0 < z < two64 -> exists m e, float_of_Z z = S754_finite false m e.
Proof.
  intros [Hz Hlt]. apply binary_normalize_finite; unfold fprec, femax; try lia.
  pose proof (Zdigits2_ull z Hz Hlt). lia.
Qed.


(** *** The order of [>] on numbers that are not NaN *)

Lemma SFltb_rank x y :
  is_nan x = false -> is_nan y = false ->
  (SFltb x y = true <-> lex_lt (rank x) (rank y)).
Proof.
  intros Hx Hy. unfold SFltb.
  destruct x as [sx|sx| |sx mx ex], y as [sy|sy| |sy my ey];
    try discriminate; simpl;
    repeat match goal with s : bool |- _ => destruct s end; simpl;
    try (split; [discriminate | lia]); try (split; [reflexivity | lia]);
    try (split; [lia | reflexivity]).
  - change (Pos.compare_cont Eq mx my) with (mx ?= my)%positive.
    destruct (Z.compare_spec ex ey), (Pos.compare_spec mx my); simpl;
      split; intros Hc; try discriminate; try reflexivity; try lia.
  - change (Pos.compare_cont Eq mx my) with (mx ?= my)%positive.
    destruct (Z.compare_spec ex ey), (Pos.compare_spec mx my); simpl;
      split; intros Hc; try discriminate; try reflexivity; try lia.
Qed.

Lemma gt_irrefl x : gt x x = false.
Proof.
  destruct (is_nan x) eqn:Hn.
  - destruct x; try discriminate. reflexivity.
  - unfold gt. apply not_true_is_false. rewrite SFltb_rank by assumption.
    unfold lex_lt. destruct (rank x) as [[a b] c]. lia.
Qed.

Lemma gt_trans x y z :
  gt x y = true -> gt y z = true -> gt x z = true.
Proof.
  unfold gt. intros Hxy Hyz.
  assert (Hnx : is_nan x = false) by (destruct x, y; try reflexivity; discriminate).
  assert (Hny : is_nan y = false) by (destruct y, z; try reflexivity; discriminate).
  assert (Hnz : is_nan z = false) by (destruct z, y; try reflexivity; discriminate).
  rewrite SFltb_rank in * by assumption.
  unfold lex_lt in *.
  destruct (rank x) as [[a1 a2] a3], (rank y) as [[b1 b2] b3], (rank z) as [[c1 c2] c3]. lia.
Qed.

Lemma gt_equiv_rank x y :
  is_nan x = false -> is_nan y = false ->
  gt x y = false -> gt y x = false -> rank x = rank y.
Proof.
  unfold gt. intros Hx Hy H1 H2.
  apply not_true_iff_false in H1, H2.
  rewrite SFltb_rank in H1, H2 by assumption.
  unfold lex_lt in *.
  destruct (rank x) as [[a1 a2] a3], (rank y) as [[b1 b2] b3].
  repeat f_equal; lia.
Qed.

Lemma gt_rank_compat x x' y y' :
  is_nan x = false -> is_nan y = false -> is_nan x' = false -> is_nan y' = false ->
  rank x = rank x' -> rank y = rank y' -> gt x y = gt x' y'.
Proof.
  unfold gt. intros Hx Hy Hx' Hy' Ex Ey.
  apply eq_true_iff_eq. rewrite !SFltb_rank by assumption. rewrite Ex, Ey. reflexivity.
Qed.

(** ** Sorting *)

Lemma by_key_strict_weak k l : no_nan l -> strict_weak (by_key k) l.
Proof.
  intros Hl. unfold no_nan in Hl. rewrite List.Forall_forall in Hl.
  destruct k; constructor; unfold by_key.
  - intros a _. apply gt_irrefl.
  - intros a b c _ _ _. apply gt_trans.
  - intros a b c Ha Hb Hc Hab Hba Hbc Hcb.
    apply Hl in Ha, Hb, Hc.
    pose proof (gt_equiv_rank _ _ Ha Hb Hab Hba) as Rab.
    pose proof (gt_equiv_rank _ _ Hb Hc Hbc Hcb) as Rbc.
    split.
    + rewrite (gt_rank_compat (cpu a) (cpu b) (cpu c) (cpu b)) by congruence.
      apply gt_irrefl.
    + rewrite (gt_rank_compat (cpu c) (cpu b) (cpu a) (cpu b)) by congruence.
      apply gt_irrefl.
  - intros a _. apply Z.ltb_irrefl.
  - intros a b c _ _ _ H1 H2. apply Z.ltb_lt in H1, H2. apply Z.ltb_lt. lia.
  - intros a b c _ _ _ H1 H2 H3 H4. apply Z.ltb_ge in H1, H2, H3, H4.
    split; apply Z.ltb_ge; lia.
Qed.

Section SortFacts.
Variable comp : ProcessInfo -> ProcessInfo -> bool.

Lemma insert_by_perm x l : Permutation (x :: l) (insert_by comp x l).
Proof.
  induction l as [|y l IH]; simpl; [reflexivity|].
  destruct (comp y x); [|reflexivity].
  rewrite perm_swap. apply perm_skip. exact IH.
Qed.

Lemma insertion_sort_perm l : Permutation l (insertion_sort comp l).
Proof.
  induction l as [|x l IH]; simpl; [reflexivity|].
  rewrite <- insert_by_perm. apply perm_skip. exact IH.
Qed.

Lemma insert_by_ordered l0 x l :
  strict_weak comp l0 -> In x l0 -> (forall y, In y l -> In y l0) ->
  ordered_by comp l -> ordered_by comp (insert_by comp x l).
Proof.
  intros Hsw Hx. unfold ordered_by.
  induction l as [|y l IH]; intros Hin Hs; simpl.
  - repeat constructor.
  - apply StronglySorted_inv in Hs. destruct Hs as [Hs Hy].
    assert (Hy0 : In y l0) by (apply Hin; left; reflexivity).
    destruct (comp y x) eqn:Eyx.
    + constructor.
      * apply IH; [|exact Hs]. intros z Hz. apply Hin. right. exact Hz.
      * rewrite List.Forall_forall in *. intros z Hz.
        apply (Permutation_in _ (Permutation_sym (insert_by_perm x l))) in Hz.
        destruct Hz as [<-|Hz]; [|apply Hy; exact Hz].
        destruct (comp x y) eqn:Exy; [|reflexivity].
        pose proof (sw_trans _ _ Hsw x y x Hx Hy0 Hx Exy Eyx) as Hxx.
        rewrite (sw_irrefl _ _ Hsw x Hx) in Hxx. discriminate.
    + constructor; [constructor; assumption|].
      constructor; [exact Eyx|].
      rewrite List.Forall_forall in *. intros z Hz.
      assert (Hz0 : In z l0) by (apply Hin; right; exact Hz).
      pose proof (Hy z Hz) as Hzy.
      destruct (comp z x) eqn:Ezx; [|reflexivity]. exfalso.
      destruct (comp y z) eqn:Eyz.
      * pose proof (sw_trans _ _ Hsw y z x Hy0 Hz0 Hx Eyz Ezx). congruence.
      * destruct (comp x y) eqn:Exy.
        -- pose proof (sw_trans _ _ Hsw z x y Hz0 Hx Hy0 Ezx Exy). congruence.
        -- destruct (sw_equiv _ _ Hsw z y x Hz0 Hy0 Hx Hzy Eyz Eyx Exy). congruence.
Qed.

Lemma insertion_sort_ordered l :
  strict_weak comp l -> ordered_by comp (insertion_sort comp l).
Proof.
  intros Hsw.
  assert (H : forall l', (forall y, In y l' -> In y l) -> ordered_by comp (insertion_sort comp l')).
  { induction l' as [|x l' IH]; intros Hin; simpl.
    - constructor.
    - apply insert_by_ordered with (l0 := l).
      + exact Hsw.
      + apply Hin. left. reflexivity.
      + intros y Hy. apply (Permutation_in _ (Permutation_sym (insertion_sort_perm l'))) in Hy.
        apply Hin. right. exact Hy.
      + apply IH. intros y Hy. apply Hin. right. exact Hy. }
  apply H. auto.
Qed.

Lemma filter_ordered (f : ProcessInfo -> bool) l :
  ordered_by comp l -> ordered_by comp (List.filter f l).
Proof.
  unfold ordered_by. induction 1 as [|a l Hs IH Ha]; simpl; [constructor|].
  destruct (f a); [|exact IH].
  constructor; [exact IH|].
  rewrite List.Forall_forall in *. intros x Hx. apply filter_In in Hx. apply Ha. tauto.
Qed.

End SortFacts.

Lemma insertion_sort_contract : sort_contract insertion_std_sort.
Proof. split; [apply insertion_sort_perm | apply insertion_sort_ordered]. Qed.

Lemma ascii_locale_printable : ascii_printable ascii_locale.
Proof.
  intros c H. simpl. unfold ascii_iswprint.
  apply andb_true_intro. split; apply Z.leb_le; lia.
Qed.

(** ** The per-process rate *)

Lemma double_100_finite : exists m e, double_of_Z 100 = S754_finite false m e.
Proof. eexists. eexists. vm_compute. reflexivity. Qed.

Lemma float_100_finite : exists m e, float_of_Z 100 = S754_finite false m e.
Proof. eexists. eexists. vm_compute. reflexivity. Qed.

(** The rate is a zero, an infinity or a finite number, never negative and
    never a NaN. *)
Lemma sample_times_sign nowSys b id kernel user :
  is_ull nowSys -> has_sign false (fst (sample_times nowSys b id kernel user)).
Proof.
  intros [Hlo Hhi]. unfold sample_times. simpl fst.
  destruct (_ && _) eqn:Hc; [|reflexivity].
  apply andb_prop in Hc. destruct Hc as [H0 H1].
  apply Z.ltb_lt in H0, H1.
  change false with (xorb false false).
  apply SFdiv_sign.
  - change false with (xorb false false).
    apply SFmul_sign; [|reflexivity|apply double_100_finite].
    apply binary_normalize_sign. apply wrap64_range.
  - apply double_of_Z_finite. rewrite wrap64_sub_ge by lia. lia.
Qed.

Lemma scan_entry_sign nowSys b pe :
  is_ull nowSys -> has_sign false (cpu (fst (scan_entry nowSys b pe))).
Proof.
  intros Hs. unfold scan_entry.
  destruct (hProc pe) as [h|]; [|reflexivity].
  destruct (h_times h) as [[kernel user]|]; [|reflexivity].
  pose proof (sample_times_sign nowSys b (th32ProcessID pe) kernel user Hs) as H.
  destruct (sample_times _ _ _ _ _) as [c b']. exact H.
Qed.

Lemma scan_no_nan nowSys b entries :
  is_ull nowSys -> no_nan (fst (scan nowSys b entries)).
Proof.
  intros Hs. revert b. induction entries as [|pe rest IH]; intros b; simpl.
  - constructor.
  - pose proof (scan_entry_sign nowSys b pe Hs) as Hp.
    destruct (scan_entry nowSys b pe) as [p b1].
    specialize (IH b1). destruct (scan nowSys b1 rest) as [ps b2].
    constructor; [|exact IH]. simpl in Hp. eapply has_sign_not_nan. exact Hp.
Qed.

Lemma scan_entry_same_at nowSys b b' pe :
  same_at (th32ProcessID pe) b b' ->
  fst (scan_entry nowSys b pe) = fst (scan_entry nowSys b' pe).
Proof.
  intros [HP HS]. unfold scan_entry.
  destruct (hProc pe) as [h|]; [|reflexivity].
  destruct (h_times h) as [[kernel user]|]; [|reflexivity].
  unfold sample_times, map_get. rewrite HP, HS. reflexivity.
Qed.

Lemma scan_entry_frame nowSys b pe id :
  th32ProcessID pe <> id -> same_at id (snd (scan_entry nowSys b pe)) b.
Proof.
  intros Hne. unfold scan_entry, same_at.
  destruct (hProc pe) as [h|]; [|split; reflexivity].
  destruct (h_times h) as [[kernel user]|]; [|split; reflexivity].
  simpl. split; apply lookup_insert_ne; exact Hne.
Qed.

(** With distinct identifiers in the table, every entry is sampled
    against the baselines the call started with. *)
Lemma scan_member nowSys entries pe :
  List.NoDup (map th32ProcessID entries) -> In pe entries ->
  forall b b0, same_at (th32ProcessID pe) b b0 ->
  In (fst (scan_entry nowSys b0 pe)) (fst (scan nowSys b entries)).
Proof.
  induction entries as [|q rest IH]; intros Hnd Hin b b0 Hsame; [contradiction|].
  simpl in Hnd. apply List.NoDup_cons_iff in Hnd. destruct Hnd as [Hq Hnd].
  simpl.
  pose proof (scan_entry_frame nowSys b q (th32ProcessID pe)) as Hfr.
  pose proof (scan_entry_same_at nowSys b b0 pe) as Heq.
  destruct (scan_entry nowSys b q) as [p b1] eqn:Eq1.
  specialize (IH Hnd).
  destruct Hin as [->|Hin].
  - destruct (scan nowSys b1 rest) as [ps b2]. left.
    rewrite <- Heq by exact Hsame. rewrite Eq1. reflexivity.
  - assert (Hne : th32ProcessID q <> th32ProcessID pe).
    { intros E. apply Hq. rewrite E. apply in_map. exact Hin. }
    specialize (IH Hin b1 b0).
    destruct (scan nowSys b1 rest) as [ps b2]. right. apply IH.
    destruct (Hfr Hne) as [H1 H2]. destruct Hsame as [H3 H4]. simpl in H1, H2.
    split; congruence.
Qed.

Lemma sample_times_rate nowSys b id kernel user c_prev s_prev :
  is_ull nowSys ->
  lastProcTime b !! id = Some c_prev -> lastSysTime b !! id = Some s_prev ->
  0 < s_prev -> s_prev < nowSys ->
  0 <= c_prev <= wrap64 (FileTimeToULL kernel + FileTimeToULL user) ->
  fst (sample_times nowSys b id kernel user)
  = rate_formula (wrap64 (FileTimeToULL kernel + FileTimeToULL user)) c_prev nowSys s_prev.
Proof.
  intros [Hs0 Hs1] HP HS H0 H1 Hc. unfold sample_times, map_get, rate_formula.
  rewrite HP, HS. simpl.
  assert (Hb : (0 <? s_prev) && (s_prev <? nowSys) = true)
    by (apply andb_true_intro; split; apply Z.ltb_lt; lia).
  rewrite Hb.
  pose proof (wrap64_range (FileTimeToULL kernel + FileTimeToULL user)) as [_ Hn].
  rewrite !wrap64_sub_ge by lia. reflexivity.
Qed.

Lemma sample_times_zero nowSys b id kernel user :
  map_get (lastSysTime b) id <= 0 \/ nowSys <= map_get (lastSysTime b) id ->
  fst (sample_times nowSys b id kernel user) = S754_zero false.
Proof.
  intros H. unfold sample_times. simpl.
  assert (Hb : (0 <? map_get (lastSysTime b) id) && (map_get (lastSysTime b) id <? nowSys) = false).
  { apply andb_false_iff. rewrite !Z.ltb_ge. lia. }
  rewrite Hb. reflexivity.
Qed.

Lemma scan_entry_cpu nowSys b pe h kernel user :
  hProc pe = Some h -> h_times h = Some (kernel, user) ->
  pid (fst (scan_entry nowSys b pe)) = th32ProcessID pe /\
  name (fst (scan_entry nowSys b pe)) = szExeFile pe /\
  cpu (fst (scan_entry nowSys b pe))
  = fst (sample_times nowSys b (th32ProcessID pe) kernel user).
Proof.
  intros Hh Ht. unfold scan_entry. rewrite Hh, Ht.
  destruct (sample_times _ _ _ _ _) as [c b']. simpl. auto.
Qed.


Section ProcessRate.
Context {srt : StdSort}.

(** C1 (amended). For every process of a table with distinct identifiers
    whose times can be read, the list returned by [GetProcesses] holds a
    record with its identifier and name whose CPU% is: the formula
    [100 * (c_now - c_prev) / (s_now - s_prev)] evaluated in binary64 when a
    baseline [(c_prev, s_prev)] is recorded with [0 < s_prev < s_now] and
    [c_prev <= c_now]; and 0 when no baseline is recorded, when the recorded
    [s_prev] is 0, or when [s_now <= s_prev]. The baseline (1000, 5000) with
    the current (1200, 5500) gives exactly 40. *)
Theorem C1_process_rate :
  (forall (b : Baselines) (os : ProcessTable) (k : bool) (entries : list ProcEntry)
          (pe : ProcEntry) (h : ProcHandle) (kernel user : FILETIME),
      sort_contract srt ->
      pt_snapshot os = Some entries ->
      List.NoDup (map th32ProcessID entries) ->
      In pe entries -> hProc pe = Some h -> h_times h = Some (kernel, user) ->
      let id := th32ProcessID pe in
      let c_now := wrap64 (FileTimeToULL kernel + FileTimeToULL user) in
      let s_now := wrap64 (FileTimeToULL (st_kernel (pt_times os))
                           + FileTimeToULL (st_user (pt_times os))) in
      exists p, In p (fst (GetProcesses b os k)) /\
        pid p = id /\ name p = szExeFile pe /\
        (forall c_prev s_prev,
            lastProcTime b !! id = Some c_prev -> lastSysTime b !! id = Some s_prev ->
            0 < s_prev -> s_prev < s_now -> 0 <= c_prev <= c_now ->
            cpu p = rate_formula c_now c_prev s_now s_prev) /\
        (lastSysTime b !! id = None -> cpu p = S754_zero false) /\
        (forall s_prev, lastSysTime b !! id = Some s_prev ->
            s_prev <= 0 \/ s_now <= s_prev -> cpu p = S754_zero false)) /\
  (forall (b : Baselines) (id : Z) (kernel user : FILETIME),
      lastProcTime b !! id = Some 1000 -> lastSysTime b !! id = Some 5000 ->
      wrap64 (FileTimeToULL kernel + FileTimeToULL user) = 1200 ->
      represents (fst (sample_times 5500 b id kernel user)) 40).
Proof.
  split.
  - intros b os k entries pe h kernel user [Hperm _] Hsnap Hnd Hin Hh Ht id c_now s_now.
    exists (fst (scan_entry s_now b pe)).
    destruct (scan_entry_cpu s_now b pe h kernel user Hh Ht) as (Hpid & Hname & Hcpu).
    split; [|split; [exact Hpid|split; [exact Hname|]]].
    + unfold GetProcesses. rewrite Hsnap. fold s_now.
      pose proof (scan_member s_now entries pe Hnd Hin b b (conj eq_refl eq_refl)) as Hm.
      destruct (scan s_now b entries) as [l b']. simpl in *.
      eapply Permutation_in; [apply Hperm|exact Hm].
    + rewrite Hcpu. fold id. split; [|split].
      * intros c_prev s_prev HP HS H0 H1 Hc.
        apply sample_times_rate; try assumption. apply wrap64_range.
      * intros HS. apply sample_times_zero. left. unfold map_get. rewrite HS. simpl. lia.
      * intros s_prev HS Hz. apply sample_times_zero. unfold map_get. rewrite HS. simpl. lia.
  - intros b id kernel user HP HS Hc.
    rewrite (sample_times_rate 5500 b id kernel user 1000 5000); rewrite ?Hc;
      try assumption; try lia; [|unfold is_ull, two64; lia].
    vm_compute. reflexivity.
Qed.

End ProcessRate.

(** C1, as worded, fails on inputs the types allow: a current CPU
    time below the recorded one (the identifier went to a new process), where
    the unsigned difference wraps; a baseline whose recorded system time is
    0, which the source reads as "no baseline"; and a quotient such as 100/3
    that binary64 does not hold exactly. *)
Lemma C1_rate_counterexample :
  let b := mkBaselines {[ 7 := 1000 ]} {[ 7 := 5000 ]} in
  let b0 := mkBaselines {[ 7 := 0 ]} {[ 7 := 0 ]} in
  (baseline_of b 7 = Some (1000, 5000) /\
   fst (sample_times 5500 b 7 (filetime_of 500) (filetime_of 300))
     = S754_finite false 7205759403792794 9 /\
   ~ represents (fst (sample_times 5500 b 7 (filetime_of 500) (filetime_of 300)))
                (spec_rate (baseline_of b 7) 800 5500)) /\
  (baseline_of b0 7 = Some (0, 0) /\
   fst (sample_times 100 b0 7 (filetime_of 6) (filetime_of 4)) = S754_zero false /\
   ~ represents (fst (sample_times 100 b0 7 (filetime_of 6) (filetime_of 4)))
                (spec_rate (baseline_of b0 7) 10 100)) /\
  (fst (sample_times 5003 b 7 (filetime_of 1000) (filetime_of 1))
     = S754_finite false 4691249611844267 (-47) /\
   ~ represents (fst (sample_times 5003 b 7 (filetime_of 1000) (filetime_of 1)))
                (spec_rate (baseline_of b 7) 1001 5003)).
Proof.
  simpl. repeat split; try (vm_compute; reflexivity).
  - vm_compute. intros H. discriminate H.
  - vm_compute. intros H. discriminate H.
  - vm_compute. intros H. discriminate H.
Qed.

(** C1 (amended) at work: a table of two processes, the second
    with the baseline and the sample of the 40% scenario. *)
Lemma C1_process_rate_witness :
  let b := mkBaselines {[ 7 := 1000 ]} {[ 7 := 5000 ]} in
  let times := mkProcHandle (Some 4096) (Some (filetime_of 700, filetime_of 500)) in
  let pe := mkProcEntry 7 [119; 116; 111; 112] (Some times) in
  let idle := mkProcEntry 0 [105; 100; 108; 101] None in
  let os := mkProcessTable (Some [idle; pe]) (system_times 9000 3000 2500) in
  (exists p, In p (fst (@GetProcesses insertion_std_sort b os true)) /\
             pid p = 7 /\ cpu p = double_of_Z 40) /\
  represents (fst (sample_times 5500 b 7 (filetime_of 700) (filetime_of 500))) 40.
Proof.
  intros b times pe idle os. split;
    [|apply (proj2 (@C1_process_rate insertion_std_sort)); reflexivity].
  destruct (proj1 (@C1_process_rate insertion_std_sort) b os true [idle; pe] pe times
              (filetime_of 700) (filetime_of 500) insertion_sort_contract eq_refl)
    as (p & Hin & Hpid & _ & Hrate & _).
  - repeat constructor; simpl; intuition discriminate.
  - right. left. reflexivity.
  - reflexivity.
  - reflexivity.
  - exists p. split; [exact Hin|]. split; [exact Hpid|].
    rewrite (Hrate 1000 5000); [vm_compute; reflexivity|reflexivity|reflexivity|lia| |].
    + vm_compute. reflexivity.
    + vm_compute. split; discriminate.
Defined.

(** ** The system-wide rate *)

(** The two differences [GetSystemCPU] forms. *)
Lemma GetSystemCPU_eq prev now :
  let sys := wrap64 (wrap64 (FileTimeToULL (st_kernel now) + FileTimeToULL (st_user now))
                     - wrap64 (FileTimeToULL (prevKernel prev) + FileTimeToULL (prevUser prev))) in
  let idleDiff := wrap64 (FileTimeToULL (st_idle now) - FileTimeToULL (prevIdle prev)) in
  GetSystemCPU prev (Some now)
  = (if sys =? 0 then S754_zero false else sys_formula sys idleDiff,
     mkSysPrev (st_idle now) (st_kernel now) (st_user now)).
Proof.
  intros sys idleDiff. unfold GetSystemCPU. fold sys. fold idleDiff.
  destruct (sys =? 0); reflexivity.
Qed.

Lemma sys_formula_sign busy idle :
  0 < busy < two64 -> has_sign false (sys_formula busy idle).
Proof.
  intros Hb. unfold sys_formula.
  change false with (xorb false false).
  apply SFdiv_sign.
  - change false with (xorb false false).
    apply SFmul_sign; [|reflexivity|apply float_100_finite].
    apply binary_normalize_sign. apply wrap64_range.
  - apply float_of_Z_finite. exact Hb.
Qed.

(** A call that could read the times returns a zero, an infinity or a
    finite number that is not negative. *)
Lemma GetSystemCPU_sign prev now :
  has_sign false (fst (GetSystemCPU prev (Some now))).
Proof.
  rewrite GetSystemCPU_eq. simpl fst.
  destruct (Z.eqb_spec
    (wrap64 (wrap64 (FileTimeToULL (st_kernel now) + FileTimeToULL (st_user now))
             - wrap64 (FileTimeToULL (prevKernel prev) + FileTimeToULL (prevUser prev)))) 0)
    as [E|E]; [reflexivity|].
  apply sys_formula_sign.
  match goal with |- 0 < wrap64 ?x < _ => pose proof (wrap64_range x) as [H0 H1] end.
  lia.
Qed.

(** C2 (amended). For the sample pair (idle=100, kernel=50, user=50) then
    (idle=120, kernel=70, user=60) the system-wide CPU% is
    [100 * (30 - 20) / 30] in binary32, about 33.33: the busy time is the
    elapsed kernel+user time less the elapsed idle time, over the elapsed
    kernel+user time. *)
Theorem C2_system_rate_example :
  let r := fst (GetSystemCPU (mkSysPrev (filetime_of 100) (filetime_of 50) (filetime_of 50))
                             (Some (system_times 120 70 60))) in
  r = sys_formula 30 20 /\
  r = S754_finite false 8738133 (-18) /\
  exists v, value r = Some v /\ (33.3333 < v)%Q /\ (v < 33.3334)%Q.
Proof.
  simpl. split; [vm_compute; reflexivity|]. split; [vm_compute; reflexivity|].
  eexists. split; [vm_compute; reflexivity|]. split; reflexivity.
Qed.

(** C2, as worded: 60% is not what the source computes for that pair. *)
Lemma C2_system_rate_counterexample :
  ~ represents
      (fst (GetSystemCPU (mkSysPrev (filetime_of 100) (filetime_of 50) (filetime_of 50))
                         (Some (system_times 120 70 60))))
      60.
Proof. vm_compute. intros H. discriminate H. Qed.

(** C3 (amended). The first call, made with the zero-initialised previous
    sample, returns the percentage computed from the first sample alone
    (busy time since boot over kernel+user time since boot, or 0 when that
    is 0), never the [-1] sentinel; the sentinel is what a call returns when
    the system times cannot be read. *)
Theorem C3_first_call :
  (forall prev, GetSystemCPU prev None = (cpu_unavailable, prev)) /\
  (forall now,
      let busy := wrap64 (FileTimeToULL (st_kernel now) + FileTimeToULL (st_user now)) in
      let idle := wrap64 (FileTimeToULL (st_idle now)) in
      fst (GetSystemCPU sysprev_init (Some now))
      = (if busy =? 0 then S754_zero false else sys_formula busy idle)) /\
  (forall prev now, fst (GetSystemCPU prev (Some now)) <> cpu_unavailable).
Proof.
  split; [reflexivity|]. split.
  - intros now busy idle. rewrite GetSystemCPU_eq. simpl fst.
    change (FileTimeToULL (prevKernel sysprev_init)) with 0.
    change (FileTimeToULL (prevUser sysprev_init)) with 0.
    change (FileTimeToULL (prevIdle sysprev_init)) with 0.
    change (wrap64 (0 + 0)) with 0. rewrite !Z.sub_0_r.
    fold busy. rewrite (wrap64_small busy) by apply wrap64_range. reflexivity.
  - intros prev now Heq. pose proof (GetSystemCPU_sign prev now) as Hs.
    rewrite Heq in Hs. vm_compute in Hs. discriminate Hs.
Qed.

(** C3, as worded: a first call on the sample (idle=20, kernel=30,
    user=20) returns 60, not the sentinel. *)
Lemma C3_first_call_counterexample :
  fst (GetSystemCPU sysprev_init (Some (system_times 20 30 20))) = float_of_Z 60 /\
  fst (GetSystemCPU sysprev_init (Some (system_times 20 30 20))) <> cpu_unavailable.
Proof. split; [vm_compute; reflexivity|vm_compute; discriminate]. Qed.

(** C9. With no elapsed system time the rate is 0, system-wide and per
    process (for a process also when the elapsed time is negative); and a
    division, where one is carried out, is by a finite number that is not
    zero, and its result is no NaN. *)
Theorem C9_zero_denominator :
  (forall prev now,
      wrap64 (FileTimeToULL (st_kernel now) + FileTimeToULL (st_user now))
      = wrap64 (FileTimeToULL (prevKernel prev) + FileTimeToULL (prevUser prev)) ->
      fst (GetSystemCPU prev (Some now)) = S754_zero false) /\
  (forall nowSys b id kernel user s_prev,
      lastSysTime b !! id = Some s_prev -> nowSys <= s_prev ->
      fst (sample_times nowSys b id kernel user) = S754_zero false) /\
  (forall prev now,
      let r := fst (GetSystemCPU prev (Some now)) in
      is_nan r = false /\
      (r = S754_zero false \/
       exists x m e, r = fdiv x (S754_finite false m e))) /\
  (forall nowSys b id kernel user,
      is_ull nowSys ->
      let r := fst (sample_times nowSys b id kernel user) in
      is_nan r = false /\
      (r = S754_zero false \/
       exists x m e, r = ddiv x (S754_finite false m e))).
Proof.
  split; [|split; [|split]].
  - intros prev now Heq. rewrite GetSystemCPU_eq. simpl fst.
    rewrite Heq, Z.sub_diag. reflexivity.
  - intros nowSys b id kernel user s_prev HS Hle.
    apply sample_times_zero. unfold map_get. rewrite HS. simpl. lia.
  - intros prev now r. split.
    + eapply has_sign_not_nan. apply GetSystemCPU_sign.
    + subst r. rewrite GetSystemCPU_eq. simpl fst.
      match goal with |- context [?s =? 0] => destruct (Z.eqb_spec s 0) as [E|E];
        [left; reflexivity|right; pose proof (wrap64_range
           (wrap64 (FileTimeToULL (st_kernel now) + FileTimeToULL (st_user now))
            - wrap64 (FileTimeToULL (prevKernel prev) + FileTimeToULL (prevUser prev)))) as [H0 H1];
         destruct (float_of_Z_finite s ltac:(lia)) as (m & e & Hm)] end.
      unfold sys_formula. rewrite Hm. eauto.
  - intros nowSys b id kernel user Hs r. split.
    + eapply has_sign_not_nan. apply sample_times_sign. exact Hs.
    + subst r. unfold sample_times. simpl fst.
      destruct (_ && _) eqn:Hc; [right|left; reflexivity].
      apply andb_prop in Hc. destruct Hc as [H0 H1]. apply Z.ltb_lt in H0, H1.
      destruct Hs as [Hs0 Hs1].
      destruct (double_of_Z_finite (wrap64 (nowSys - map_get (lastSysTime b) id)))
        as (m & e & Hm); [rewrite wrap64_sub_ge by lia; lia|].
      rewrite Hm. eauto.
Qed.

(** C9 at work: equal kernel+user sums system-wide, an unchanged system
    time for a process, and a rate that is computed. *)
Lemma C9_zero_denominator_witness :
  fst (GetSystemCPU (mkSysPrev (filetime_of 100) (filetime_of 50) (filetime_of 50))
                    (Some (system_times 130 60 40))) = S754_zero false /\
  fst (sample_times 5000 (mkBaselines {[ 7 := 1000 ]} {[ 7 := 5000 ]}) 7
                    (filetime_of 700) (filetime_of 500)) = S754_zero false /\
  is_nan (fst (sample_times 5500 (mkBaselines {[ 7 := 1000 ]} {[ 7 := 5000 ]}) 7
                            (filetime_of 700) (filetime_of 500))) = false.
Proof.
  split; [|split].
  - apply (proj1 C9_zero_denominator). reflexivity.
  - apply (proj1 (proj2 C9_zero_denominator)) with (s_prev := 5000); [reflexivity|lia].
  - apply (proj2 (proj2 (proj2 C9_zero_denominator))). unfold is_ull, two64. lia.
Defined.

(** ** Order of the list *)

Lemma SFleb_rank x y :
  is_nan x = false -> is_nan y = false ->
  (SFleb x y = true <-> ~ lex_lt (rank y) (rank x)).
Proof.
  intros Hx Hy. unfold SFleb.
  destruct x as [sx|sx| |sx mx ex], y as [sy|sy| |sy my ey];
    try discriminate; simpl;
    repeat match goal with s : bool |- _ => destruct s end; simpl;
    try (split; [discriminate | lia]); try (split; [reflexivity | lia]);
    try (split; [lia | reflexivity]).
  - change (Pos.compare_cont Eq mx my) with (mx ?= my)%positive.
    destruct (Z.compare_spec ex ey), (Pos.compare_spec mx my); simpl;
      split; intros Hc; try discriminate; try reflexivity; try lia.
  - change (Pos.compare_cont Eq mx my) with (mx ?= my)%positive.
    destruct (Z.compare_spec ex ey), (Pos.compare_spec mx my); simpl;
      split; intros Hc; try discriminate; try reflexivity; try lia.
Qed.

Lemma not_gt_leb x y :
  is_nan x = false -> is_nan y = false -> gt y x = false -> SFleb y x = true.
Proof.
  intros Hx Hy H. apply SFleb_rank; try assumption.
  unfold gt in H. apply not_true_iff_false in H.
  rewrite SFltb_rank in H by assumption. exact H.
Qed.

Lemma StronglySorted_weaken {A} (R R' : A -> A -> Prop) (P : A -> Prop) l :
  (forall a b, P a -> P b -> R a b -> R' a b) -> Forall P l ->
  StronglySorted R l -> StronglySorted R' l.
Proof.
  intros HR HP Hs. induction Hs as [|a l Hs IH Ha]; [constructor|].
  apply List.Forall_cons_iff in HP. destruct HP as [Pa Pl].
  constructor; [apply IH; exact Pl|].
  rewrite List.Forall_forall in *. intros x Hx. apply HR; auto.
Qed.

Lemma ordered_descending k l :
  no_nan l -> ordered_by (by_key k) l ->
  if k then descending_cpu l else descending_memory l.
Proof.
  intros Hn Ho. destruct k.
  - eapply StronglySorted_weaken; [|exact Hn|exact Ho].
    intros a b Ha Hb H. simpl in H. apply not_gt_leb; assumption.
  - eapply StronglySorted_weaken; [|exact Hn|exact Ho].
    intros a b _ _ H. simpl in H. apply Z.ltb_ge in H. exact H.
Qed.

Lemma no_nan_perm l l' : Permutation l l' -> no_nan l -> no_nan l'.
Proof. unfold no_nan. intros Hp Hl. eapply Permutation_Forall; eassumption. Qed.

Lemma no_nan_filter (f : ProcessInfo -> bool) l : no_nan l -> no_nan (List.filter f l).
Proof.
  unfold no_nan. rewrite !List.Forall_forall. intros H x Hx.
  apply List.filter_In in Hx. apply H. tauto.
Qed.

Section SortOrder.
Context {loc : CLocale} {srt : StdSort}.
Hypothesis Hsort : sort_contract srt.

Lemma GetProcesses_no_nan b os k : no_nan (fst (GetProcesses b os k)).
Proof.
  unfold GetProcesses. destruct (pt_snapshot os) as [entries|]; [|constructor].
  match goal with |- context [scan ?s b entries] =>
    pose proof (scan_no_nan s b entries (wrap64_range _)) as Hn;
    destruct (scan s b entries) as [l b'] end.
  simpl in *. eapply no_nan_perm; [apply Hsort|exact Hn].
Qed.

Lemma GetProcesses_ordered b os k : ordered_by (by_key k) (fst (GetProcesses b os k)).
Proof.
  unfold GetProcesses. destruct (pt_snapshot os) as [entries|]; [|constructor].
  match goal with |- context [scan ?s b entries] =>
    pose proof (scan_no_nan s b entries (wrap64_range _)) as Hn;
    destruct (scan s b entries) as [l b'] end.
  simpl in *. apply Hsort. apply by_key_strict_weak. exact Hn.
Qed.

End SortOrder.

(** ** Filtering *)

Lemma starts_with_spec needle hay :
  starts_with needle hay = true <-> exists post, hay = needle ++ post.
Proof.
  revert hay. induction needle as [|c needle IH]; intros hay; simpl.
  - split; [intros _; exists hay; reflexivity|reflexivity].
  - destruct hay as [|d hay].
    + split; [discriminate|intros [post H]; discriminate].
    + rewrite andb_true_iff, Z.eqb_eq, IH. split.
      * intros [-> [post ->]]. exists post. reflexivity.
      * intros [post H]. injection H as -> ->. eauto.
Qed.

Lemma wfind_spec hay needle pos :
  (exists i, wfind hay needle pos = Some i) <->
  (exists pre post, hay = pre ++ needle ++ post).
Proof.
  revert pos. induction hay as [|c hay IH]; intros pos; simpl.
  - destruct (starts_with needle []) eqn:Es.
    + apply starts_with_spec in Es. destruct Es as [post Hp].
      split; [intros _; exists [], post; exact Hp|eauto].
    + split; [intros [i H]; discriminate|].
      intros (pre & post & H). exfalso.
      destruct pre; [|discriminate].
      assert (starts_with needle [] = true) by (apply starts_with_spec; eauto).
      congruence.
  - destruct (starts_with needle (c :: hay)) eqn:Es.
    + apply starts_with_spec in Es. destruct Es as [post Hp].
      split; [intros _; exists [], post; exact Hp|eauto].
    + rewrite IH. split.
      * intros (pre & post & ->). exists (c :: pre), post. reflexivity.
      * intros (pre & post & H). destruct pre as [|d pre].
        -- assert (starts_with needle (c :: hay) = true) by (apply starts_with_spec; eauto).
           congruence.
        -- injection H as -> ->. eauto.
Qed.

Section FilterFacts.
Context {loc : CLocale}.

(** [MatchesFilter] decides the containment of the specification. *)
Lemma MatchesFilter_spec name flt :
  MatchesFilter name flt = true <-> contains_ci name flt.
Proof.
  unfold MatchesFilter, contains_ci. destruct flt as [|c flt].
  - split; [intros _; exists [], (map towlower name); reflexivity|reflexivity].
  - rewrite <- (wfind_spec (map towlower name) (map towlower (c :: flt)) 0).
    destruct (wfind _ _ 0) as [i|]; split; eauto; try discriminate.
    intros [i H]. discriminate.
Qed.

Lemma apply_filter_sublist flt l : sublist (apply_filter flt l) l.
Proof.
  unfold apply_filter. induction l as [|p l IH]; simpl; [constructor|].
  destruct (MatchesFilter (name p) flt); constructor; exact IH.
Qed.

(** C7. Filtering keeps a record exactly when its name contains the
    filter text as a case-insensitive substring; what it keeps stays in the
    order of the input; and with the empty text it returns the input. *)
Theorem C7_filter :
  forall (all : list ProcessInfo) (flt : wstring),
    (forall p, In p (apply_filter flt all) <-> In p all /\ contains_ci (name p) flt) /\
    sublist (apply_filter flt all) all /\
    apply_filter [] all = all.
Proof.
  intros all flt. split; [|split].
  - intros p. unfold apply_filter. rewrite List.filter_In, MatchesFilter_spec. reflexivity.
  - apply apply_filter_sublist.
  - unfold apply_filter. induction all as [|p all IH]; simpl; [reflexivity|].
    f_equal. exact IH.
Qed.

End FilterFacts.

(** ** Failure of the enumeration *)

Lemma visible_rows_nil s : visible_rows s [] = [].
Proof.
  unfold visible_rows. destruct (s <? 0); [reflexivity|].
  rewrite skipn_nil. apply firstn_nil.
Qed.

Section Enumeration.
Context {loc : CLocale} {srt : StdSort}.

(** C5 (amended). When the process table cannot be opened the step does
    not fail: [GetProcesses] returns the empty list and leaves the baselines
    as they were, and the iteration goes on to draw a table with no row; the
    list of the previous iteration is gone. *)
Theorem C5_enumeration_failure :
  forall (w : World) (t : Tick) (v : View) (kbd : list Z),
    pt_snapshot (os_table t) = None ->
    poll_key (Z.of_nat (length (filtered w))) (view w) (console w ++ typed t)
      = Some (v, kbd) ->
    showHelp v = false ->
    GetProcesses (baselines w) (os_table t) (sortByCpu v) = ([], baselines w) /\
    cycle w t
    = Some (mkWorld v [] [] (baselines w) (snd (GetSystemCPU (sysprev w) (os_times t))) kbd,
            TableFrame (fst (GetSystemCPU (sysprev w) (os_times t)))
                       (sortByCpu v) (searchFilter v) (searchMode v) []).
Proof.
  intros w t v kbd Hsnap Hkey Hhelp.
  assert (HG : GetProcesses (baselines w) (os_table t) (sortByCpu v) = ([], baselines w))
    by (unfold GetProcesses; rewrite Hsnap; reflexivity).
  split; [exact HG|].
  unfold cycle. rewrite Hkey, Hhelp, HG.
  destruct (GetSystemCPU (sysprev w) (os_times t)) as [c sp]. simpl.
  rewrite visible_rows_nil. reflexivity.
Qed.

End Enumeration.

(** C5, as worded: a cycle that lists one process followed by one whose
    enumeration fails: the list of the first is not there to be drawn again. *)
Lemma C5_enumeration_counterexample :
  let t1 := mkTick [] one_process_table (Some (system_times 900 300 200)) in
  let t2 := mkTick [] no_process_table (Some (system_times 950 330 220)) in
  exists w1 w2 f2,
    @cycle ascii_locale insertion_std_sort world_init t1
      = Some (w1, TableFrame (fst (GetSystemCPU sysprev_init (os_times t1))) true [] false
                             [mkProcessInfo 4 [97] 4096 (S754_zero false)]) /\
    @cycle ascii_locale insertion_std_sort w1 t2 = Some (w2, f2) /\
    allProcesses w1 = [mkProcessInfo 4 [97] 4096 (S754_zero false)] /\
    allProcesses w2 = [] /\
    allProcesses w2 <> allProcesses w1 /\
    f2 = TableFrame (fst (GetSystemCPU (sysprev w1) (os_times t2))) true [] false [].
Proof.
  intros t1 t2. eexists. eexists. eexists.
  split; [vm_compute; reflexivity|].
  split; [vm_compute; reflexivity|].
  split; [reflexivity|]. split; [reflexivity|]. split; [discriminate|reflexivity].
Qed.

(** C5 (amended) at work on the initial state. *)
Lemma C5_enumeration_failure_witness :
  let t2 := mkTick [] no_process_table (Some (system_times 950 330 220)) in
  @GetProcesses insertion_std_sort (baselines world_init) (os_table t2) true
  = ([], baselines world_init).
Proof.
  intros t2.
  apply (proj1 (@C5_enumeration_failure ascii_locale insertion_std_sort
                  world_init t2 view_init [] eq_refl eq_refl eq_refl)).
Defined.

(** ** Keys *)

(** Case analysis on every test of the goal. *)
Ltac case_ifs :=
  repeat match goal with |- context [if ?c then _ else _] => destruct c end.

Section KeyFacts.
Context {loc : CLocale} {srt : StdSort}.

(** The scroll offset never goes below 0. *)
Lemma poll_key_scroll_nonneg nf v kbd v' kbd' :
  0 <= scroll v -> poll_key nf v kbd = Some (v', kbd') -> 0 <= scroll v'.
Proof.
  intros Hs. unfold poll_key.
  destruct kbd as [|ch kbd1]; [intros [= <- _]; exact Hs|].
  destruct (searchMode v).
  - intros [= <- _]. unfold search_key.
    case_ifs;
      try destruct (searchFilter v); simpl; exact Hs.
  - destruct ((ch =? 0) || (ch =? 224)).
    + destruct kbd1 as [|ch2 kbd2]; [discriminate|]. intros [= <- _].
      unfold arrow_key. destruct (showHelp v); [exact Hs|]. simpl.
      destruct ((ch2 =? KEY_UP) && (0 <? scroll v)) eqn:E1;
        [apply andb_prop in E1; destruct E1 as [_ E1]; apply Z.ltb_lt in E1|];
        match goal with |- context [if ?c then _ else _] => destruct c end; lia.
    + intros [= <- _]. unfold plain_key.
      case_ifs;
        simpl; lia.
Qed.

(** A key leaves the scroll offset in the range of the list it was
    checked against. *)
Lemma poll_key_scroll_in_range nf v kbd v' kbd' :
  scroll_in_range (scroll v) nf -> poll_key nf v kbd = Some (v', kbd') ->
  scroll_in_range (scroll v') nf.
Proof.
  unfold scroll_in_range, page_size. intros Hs. unfold poll_key.
  destruct kbd as [|ch kbd1]; [intros [= <- _]; exact Hs|].
  destruct (searchMode v).
  - intros [= <- _]. unfold search_key.
    case_ifs;
      try destruct (searchFilter v); simpl; exact Hs.
  - destruct ((ch =? 0) || (ch =? 224)).
    + destruct kbd1 as [|ch2 kbd2]; [discriminate|]. intros [= <- _].
      unfold arrow_key, page_size. destruct (showHelp v); [exact Hs|]. simpl.
      destruct ((ch2 =? KEY_UP) && (0 <? scroll v)) eqn:E1;
        [apply andb_prop in E1; destruct E1 as [_ E1]; apply Z.ltb_lt in E1|];
        match goal with |- context [if ?c && (?a <? ?b) then _ else _] =>
          destruct c; simpl; destruct (Z.ltb_spec a b) end; lia.
    + intros [= <- _]. unfold plain_key.
      case_ifs;
        simpl; lia.
Qed.

(** One iteration in which a single key code arrives at an empty console,
    the code not being the prefix of an arrow key unless a search is on. *)
Lemma cycle_one_key w t ch :
  console w = [] -> typed t = [ch] ->
  searchMode (view w) = true \/ (ch <> 0 /\ ch <> 224) ->
  exists w' f, cycle w t = Some (w', f) /\
    view w' = (if searchMode (view w) then search_key (view w) ch
               else plain_key (view w) ch) /\
    console w' = [] /\
    (showHelp (view w') = false ->
       filtered w' = apply_filter (searchFilter (view w')) (allProcesses w')) /\
    (showHelp (view w') = true ->
       baselines w' = baselines w /\ sysprev w' = sysprev w /\
       allProcesses w' = allProcesses w /\ filtered w' = filtered w).
Proof.
  intros Hc Ht Hch. unfold cycle. rewrite Hc, Ht. simpl app. unfold poll_key.
  assert (Hk : (if searchMode (view w) then Some (search_key (view w) ch, @nil Z)
                else if (ch =? 0) || (ch =? 224) then @None (View * list Z)
                else Some (plain_key (view w) ch, []))
               = Some (if searchMode (view w) then search_key (view w) ch
                       else plain_key (view w) ch, [])).
  { destruct (searchMode (view w)); [reflexivity|].
    destruct Hch as [Hch|[H0 H224]]; [discriminate|].
    apply Z.eqb_neq in H0, H224. rewrite H0, H224. reflexivity. }
  rewrite Hk. clear Hk.
  set (v := if searchMode (view w) then _ else _).
  destruct (showHelp v) eqn:Hh.
  - eexists. eexists. split; [reflexivity|]. simpl.
    split; [reflexivity|]. split; [reflexivity|]. split; [congruence|auto].
  - destruct (GetProcesses _ _ _) as [all b]. destruct (GetSystemCPU _ _) as [c sp].
    eexists. eexists. split; [reflexivity|]. simpl.
    split; [reflexivity|]. split; [reflexivity|]. split; [auto|congruence].
Qed.

(** One iteration while the help screen is up and nothing or an arrow key
    is typed: nothing changes. *)
Lemma cycle_quiet_help w t :
  console w = [] -> quiet t ->
  showHelp (view w) = true -> searchMode (view w) = false ->
  cycle w t = Some (w, HelpFrame).
Proof.
  intros Hc Hq Hh Hs. unfold cycle. rewrite Hc. simpl app.
  destruct w as [v all flt b sp kbd]. simpl in *. subst kbd.
  destruct Hq as [-> | [code [-> | ->]]]; unfold poll_key; rewrite ?Hs; simpl;
    unfold arrow_key; rewrite ?Hh; reflexivity.
Qed.

Lemma run_quiet_help w ts :
  console w = [] -> Forall quiet ts ->
  showHelp (view w) = true -> searchMode (view w) = false ->
  run w ts = Some w.
Proof.
  intros Hc Hq Hh Hs. induction Hq as [|t ts Ht Hq IH]; simpl; [reflexivity|].
  rewrite cycle_quiet_help by assumption. exact IH.
Qed.

End KeyFacts.

(** ** Invariants of the loop *)

Lemma scan_entry_paired nowSys b pe :
  baselines_paired b -> baselines_paired (snd (scan_entry nowSys b pe)).
Proof.
  unfold baselines_paired, scan_entry. intros Hb.
  destruct (hProc pe) as [h|]; [|exact Hb].
  destruct (h_times h) as [[kernel user]|]; [|exact Hb].
  simpl. rewrite !dom_insert_L, Hb. reflexivity.
Qed.

Lemma scan_paired nowSys b entries :
  baselines_paired b -> baselines_paired (snd (scan nowSys b entries)).
Proof.
  revert b. induction entries as [|pe rest IH]; intros b Hb; simpl; [exact Hb|].
  pose proof (scan_entry_paired nowSys b pe Hb) as H1.
  destruct (scan_entry nowSys b pe) as [p b1]. simpl in H1.
  specialize (IH b1 H1). destruct (scan nowSys b1 rest) as [ps b2]. exact IH.
Qed.

Section LoopInvariants.
Context {loc : CLocale} {srt : StdSort}.

Lemma GetProcesses_paired b os k :
  baselines_paired b -> baselines_paired (snd (GetProcesses b os k)).
Proof.
  intros Hb. unfold GetProcesses. destruct (pt_snapshot os) as [entries|]; [|exact Hb].
  match goal with |- context [scan ?s b entries] =>
    pose proof (scan_paired s b entries Hb) as H; destruct (scan s b entries) as [l b'] end.
  exact H.
Qed.

Lemma cycle_invariant w t w' f :
  loop_invariant w -> cycle w t = Some (w', f) -> loop_invariant w'.
Proof.
  intros [Hs Hb]. unfold cycle.
  destruct (poll_key _ _ _) as [[v kbd]|] eqn:Hk; [|discriminate].
  pose proof (poll_key_scroll_nonneg _ _ _ _ _ Hs Hk) as Hv.
  destruct (showHelp v).
  - intros [= <- _]. split; assumption.
  - pose proof (GetProcesses_paired (baselines w) (os_table t) (sortByCpu v) Hb) as Hp.
    destruct (GetProcesses _ _ _) as [all b]. destruct (GetSystemCPU _ _) as [c sp].
    intros [= <- _]. split; assumption.
Qed.

Lemma run_invariant ts : forall w w',
  loop_invariant w -> run w ts = Some w' -> loop_invariant w'.
Proof.
  induction ts as [|t ts IH]; intros w w' Hw; simpl.
  - intros [= <-]. exact Hw.
  - destruct (cycle w t) as [[w1 f]|] eqn:Hc; [|discriminate].
    apply IH. eapply cycle_invariant; eassumption.
Qed.

Lemma world_init_invariant : loop_invariant world_init.
Proof. split; [simpl; lia|reflexivity]. Qed.

End LoopInvariants.

Section KeyClaims.
Context {loc : CLocale} {srt : StdSort}.

(** C8. From Normal mode, the keys [/], [a], [b], [c], [Esc], one per
    iteration, end in Normal mode with the empty filter text; with [Enter]
    in the place of [Esc] they end in Normal mode with the text "abc", which
    is the text the list has been filtered by. *)
Theorem C8_search_sequences :
  ascii_printable loc ->
  forall (w : World) (t1 t2 t3 t4 t5 : Tick),
    console w = [] -> searchMode (view w) = false -> showHelp (view w) = false ->
    (exists w',
        run w [press KEY_SLASH t1; press 97 t2; press 98 t3; press 99 t4;
               press KEY_ESC t5] = Some w' /\
        searchMode (view w') = false /\ showHelp (view w') = false /\
        searchFilter (view w') = []) /\
    (exists w',
        run w [press KEY_SLASH t1; press 97 t2; press 98 t3; press 99 t4;
               press KEY_ENTER t5] = Some w' /\
        searchMode (view w') = false /\ showHelp (view w') = false /\
        searchFilter (view w') = [97; 98; 99] /\
        filtered w' = apply_filter [97; 98; 99] (allProcesses w')).
Proof.
  intros Hpr w t1 t2 t3 t4 t5 Hc Hs Hh.
  assert (Ha : iswprint 97 = true) by (apply Hpr; lia).
  assert (Hb : iswprint 98 = true) by (apply Hpr; lia).
  assert (Hcc : iswprint 99 = true) by (apply Hpr; lia).
  destruct (cycle_one_key w (press KEY_SLASH t1) KEY_SLASH Hc eq_refl)
    as (w1 & f1 & E1 & V1 & C1 & _ & _); [right; unfold KEY_SLASH; lia|].
  rewrite Hs in V1. unfold plain_key in V1. simpl in V1.
  destruct (cycle_one_key w1 (press 97 t2) 97 C1 eq_refl)
    as (w2 & f2 & E2 & V2 & C2 & _ & _); [right; lia|].
  rewrite V1 in V2. simpl in V2. unfold search_key in V2. simpl in V2. rewrite Ha in V2.
  destruct (cycle_one_key w2 (press 98 t3) 98 C2 eq_refl)
    as (w3 & f3 & E3 & V3 & C3 & _ & _); [right; lia|].
  rewrite V2 in V3. simpl in V3. unfold search_key in V3. simpl in V3. rewrite Hb in V3.
  destruct (cycle_one_key w3 (press 99 t4) 99 C3 eq_refl)
    as (w4 & f4 & E4 & V4 & C4 & _ & _); [right; lia|].
  rewrite V3 in V4. simpl in V4. unfold search_key in V4. simpl in V4. rewrite Hcc in V4.
  split.
  - destruct (cycle_one_key w4 (press KEY_ESC t5) KEY_ESC C4 eq_refl)
      as (w5 & f5 & E5 & V5 & C5 & _ & _); [right; unfold KEY_ESC; lia|].
    rewrite V4 in V5. simpl in V5.
    exists w5. simpl run. rewrite E1, E2, E3, E4, E5, V5. simpl. auto.
  - destruct (cycle_one_key w4 (press KEY_ENTER t5) KEY_ENTER C4 eq_refl)
      as (w5 & f5 & E5 & V5 & C5 & F5 & _); [right; unfold KEY_ENTER; lia|].
    rewrite V4 in V5. simpl in V5.
    exists w5. simpl run. rewrite E1, E2, E3, E4, E5.
    rewrite V5 in F5. simpl in F5. rewrite V5. simpl.
    split; [reflexivity|]. split; [reflexivity|]. split; [exact Hh|].
    split; [reflexivity|]. apply F5. exact Hh.
Qed.

(** C10. While the help screen is up, an arrow key leaves the view as it
    is; and from Normal mode, the help key, any number of iterations with
    the help screen up in which nothing or arrow keys are typed, and the help
    key again leave the sort key, the filter text, the scroll offset and both
    baseline maps as they were: no iteration with the help screen up takes a
    snapshot. *)
Theorem C10_help_frame :
  (forall nf v prefix code kbd v' kbd',
      showHelp v = true -> prefix = 0 \/ prefix = 224 ->
      poll_key nf v (prefix :: code :: kbd) = Some (v', kbd') ->
      scroll v' = scroll v /\ (searchMode v = false -> v' = v /\ kbd' = kbd)) /\
  (forall (w : World) (t_on : Tick) (ts : list Tick) (k_on k_off : Z),
      console w = [] -> searchMode (view w) = false -> showHelp (view w) = false ->
      k_on = KEY_h \/ k_on = KEY_H -> k_off = KEY_h \/ k_off = KEY_H ->
      Forall quiet ts ->
      exists w1,
        run w (press k_on t_on :: ts) = Some w1 /\
        showHelp (view w1) = true /\
        sortByCpu (view w1) = sortByCpu (view w) /\
        searchFilter (view w1) = searchFilter (view w) /\
        scroll (view w1) = scroll (view w) /\
        baselines w1 = baselines w /\
        sysprev w1 = sysprev w /\
        allProcesses w1 = allProcesses w /\
        poll_key (Z.of_nat (length (filtered w1))) (view w1) (console w1 ++ [k_off])
          = Some (view w, [])).
Proof.
  split.
  - intros nf v prefix code kbd v' kbd' Hh Hp. unfold poll_key.
    destruct (searchMode v).
    + intros [= <- <-]. split; [|discriminate]. unfold search_key.
      case_ifs;
        try destruct (searchFilter v); reflexivity.
    + assert (Hpre : (prefix =? 0) || (prefix =? 224) = true)
        by (destruct Hp as [-> | ->]; reflexivity).
      rewrite Hpre. unfold arrow_key. rewrite Hh. intros [= <- <-]. auto.
  - intros w t_on ts k_on k_off Hc Hs Hh Hon Hoff Hq.
    destruct (cycle_one_key w (press k_on t_on) k_on Hc eq_refl)
      as (w1 & f1 & E1 & V1 & C1 & _ & F1);
      [right; unfold KEY_h, KEY_H in Hon; lia|].
    rewrite Hs in V1.
    assert (V1' : view w1 = mkView (sortByCpu (view w)) true (scroll (view w)) false
                                   (searchFilter (view w))).
    { rewrite V1. unfold plain_key. rewrite Hh, Hs.
      destruct Hon as [-> | ->]; reflexivity. }
    assert (Hh1 : showHelp (view w1) = true) by (rewrite V1'; reflexivity).
    assert (Hs1 : searchMode (view w1) = false) by (rewrite V1'; reflexivity).
    destruct (F1 Hh1) as (B1 & S1 & A1 & _).
    exists w1. simpl run. rewrite E1.
    rewrite (run_quiet_help w1 ts C1 Hq Hh1 Hs1).
    split; [reflexivity|]. rewrite C1, V1'. simpl.
    repeat (split; [first [reflexivity | assumption]|]).
    unfold plain_key. destruct (view w) as [k h s m f]. simpl in *. subst h m.
    destruct Hoff as [-> | ->]; reflexivity.
Qed.

End KeyClaims.

(** C4 (the code at the failing input). Seventeen processes are listed,
    Down is pressed twice (offset 2, the largest in range for 17 rows), then
    the filter "q" is typed and applied; one process matches, the range for
    one row is [0, 0], and the offset is still 2: no row is drawn. *)
Theorem C4_scroll_out_of_range :
  exists w,
    @run ascii_locale insertion_std_sort world_init shrinking_script = Some w /\
    searchMode (view w) = false /\
    searchFilter (view w) = [113] /\
    length (filtered w) = 1%nat /\
    scroll (view w) = 2 /\
    ~ scroll_in_range (scroll (view w)) (Z.of_nat (length (filtered w))) /\
    visible_rows (scroll (view w)) (filtered w) = [].
Proof.
  eexists. split; [vm_compute; reflexivity|].
  split; [reflexivity|]. split; [reflexivity|]. split; [reflexivity|].
  split; [reflexivity|]. split; [|reflexivity].
  unfold scroll_in_range, page_size. simpl. lia.
Qed.

(** C8 at work from the initial state, in the ASCII locale. *)
Lemma C8_search_sequences_witness :
  (exists w', @run ascii_locale insertion_std_sort world_init
                [press KEY_SLASH seventeen_tick; press 97 seventeen_tick;
                 press 98 seventeen_tick; press 99 seventeen_tick;
                 press KEY_ESC seventeen_tick] = Some w' /\
              searchMode (view w') = false /\ showHelp (view w') = false /\
              searchFilter (view w') = []) /\
  (exists w', @run ascii_locale insertion_std_sort world_init
                [press KEY_SLASH seventeen_tick; press 97 seventeen_tick;
                 press 98 seventeen_tick; press 99 seventeen_tick;
                 press KEY_ENTER seventeen_tick] = Some w' /\
              searchMode (view w') = false /\ showHelp (view w') = false /\
              searchFilter (view w') = [97; 98; 99] /\
              filtered w' = @apply_filter ascii_locale [97; 98; 99] (allProcesses w')).
Proof.
  apply (@C8_search_sequences ascii_locale insertion_std_sort ascii_locale_printable
           world_init seventeen_tick seventeen_tick seventeen_tick seventeen_tick
           seventeen_tick eq_refl eq_refl eq_refl).
Defined.

(** C10 at work from the initial state: help on with [h], one idle
    iteration, one Down press, help off with [H]. *)
Lemma C10_help_frame_witness :
  exists w1,
    @run ascii_locale insertion_std_sort world_init
      [press KEY_h seventeen_tick; seventeen_tick; press_arrow KEY_DOWN seventeen_tick]
      = Some w1 /\
    showHelp (view w1) = true /\
    sortByCpu (view w1) = true /\ searchFilter (view w1) = [] /\ scroll (view w1) = 0 /\
    baselines w1 = mkBaselines ∅ ∅ /\ sysprev w1 = sysprev_init /\
    allProcesses w1 = [] /\
    @poll_key ascii_locale (Z.of_nat (length (filtered w1))) (view w1) (console w1 ++ [KEY_H])
      = Some (view_init, []).
Proof.
  apply (proj2 (@C10_help_frame ascii_locale insertion_std_sort)
           world_init seventeen_tick [seventeen_tick; press_arrow KEY_DOWN seventeen_tick]
           KEY_h KEY_H eq_refl eq_refl eq_refl (or_introl eq_refl) (or_intror eq_refl)).
  constructor; [left; reflexivity|].
  constructor; [right; exists KEY_DOWN; right; reflexivity|].
  constructor.
Defined.

(** ** A process that used no CPU time *)

(** With a valid baseline and no CPU time consumed since, the rate is
    exactly 0. *)
Lemma rate_formula_idle c s_now s_prev :
  0 < s_now - s_prev < two64 -> rate_formula c c s_now s_prev = S754_zero false.
Proof.
  intros Hs. unfold rate_formula. rewrite Z.sub_diag.
  destruct (double_of_Z_finite (s_now - s_prev) Hs) as (m & e & ->).
  reflexivity.
Qed.

(** * Further properties of the code *)

(** ** More on time stamps *)

(** X1. For a time stamp whose two halves are 32-bit values,
    [FileTimeToULL] is [high * 2^32 + low], a value that fits 64 bits: the
    halves do not overlap. *)
Theorem X1_FileTimeToULL_halves :
  forall ft : FILETIME,
    0 <= dwLowDateTime ft < 2 ^ 32 -> 0 <= dwHighDateTime ft < 2 ^ 32 ->
    FileTimeToULL ft = dwHighDateTime ft * 2 ^ 32 + dwLowDateTime ft /\
    is_ull (FileTimeToULL ft).
Proof.
  intros [lo hi] Hlo Hhi. simpl in *. unfold FileTimeToULL. simpl.
  assert (Hdisj : Z.land (Z.shiftl hi 32) lo = 0).
  { apply Z.bits_inj'. intros k Hk. rewrite Z.land_spec, Z.bits_0.
    destruct (Z.lt_ge_cases k 32) as [Hlt|Hge].
    - rewrite Z.shiftl_spec_low by lia. reflexivity.
    - assert (Hb : Z.testbit lo k = false).
      { destruct (Z.eq_dec lo 0) as [->|Hne]; [apply Z.bits_0|].
        apply Z.bits_above_log2; [lia|].
        apply Z.lt_le_trans with 32; [|exact Hge].
        apply Z.log2_lt_pow2; lia. }
      rewrite Hb. apply andb_false_r. }
  assert (Heq : Z.lor (Z.shiftl hi 32) lo = hi * 2 ^ 32 + lo).
  { rewrite <- Z.lxor_lor by exact Hdisj.
    rewrite <- Z.add_nocarry_lxor by exact Hdisj.
    rewrite Z.shiftl_mul_pow2 by lia. reflexivity. }
  rewrite Heq. split; [reflexivity|]. unfold is_ull, two64.
  change (2 ^ 64) with (2 ^ 32 * 2 ^ 32). nia.
Qed.

(** X1 at work. *)
Lemma X1_FileTimeToULL_halves_witness :
  FileTimeToULL (mkFILETIME 5 3) = 3 * 2 ^ 32 + 5 /\ is_ull (FileTimeToULL (mkFILETIME 5 3)).
Proof. apply X1_FileTimeToULL_halves; simpl; lia. Defined.

(** ** More on the process list *)

Lemma scan_entry_ident nowSys b pe :
  pid (fst (scan_entry nowSys b pe)) = th32ProcessID pe /\
  name (fst (scan_entry nowSys b pe)) = szExeFile pe.
Proof.
  unfold scan_entry. destruct (hProc pe) as [h|]; [|auto].
  destruct (h_times h) as [[kernel user]|]; [|auto].
  destruct (sample_times _ _ _ _ _); auto.
Qed.

Lemma scan_idents nowSys b entries :
  map (fun p => (pid p, name p)) (fst (scan nowSys b entries))
  = map (fun pe => (th32ProcessID pe, szExeFile pe)) entries.
Proof.
  revert b. induction entries as [|pe rest IH]; intros b; simpl; [reflexivity|].
  destruct (scan_entry_ident nowSys b pe) as [Hp Hn].
  destruct (scan_entry nowSys b pe) as [p b1]. specialize (IH b1).
  destruct (scan nowSys b1 rest) as [ps b2]. simpl in *. rewrite Hp, Hn, IH. reflexivity.
Qed.

(** An entry that cannot be opened or timed: memory as far as it was
    read, rate 0, baselines untouched. *)
Lemma scan_entry_unreadable nowSys b pe :
  entry_times pe = None ->
  cpu (fst (scan_entry nowSys b pe)) = S754_zero false /\
  snd (scan_entry nowSys b pe) = b /\
  (hProc pe = None -> memory (fst (scan_entry nowSys b pe)) = 0).
Proof.
  unfold entry_times, scan_entry. destruct (hProc pe) as [h|]; [|auto].
  intros ->. split; [reflexivity|]. split; [reflexivity|discriminate].
Qed.

Lemma scan_entry_readable nowSys b pe kernel user :
  entry_times pe = Some (kernel, user) ->
  cpu (fst (scan_entry nowSys b pe))
    = fst (sample_times nowSys b (th32ProcessID pe) kernel user) /\
  snd (scan_entry nowSys b pe)
    = mkBaselines (<[th32ProcessID pe := proc_now kernel user]> (lastProcTime b))
                  (<[th32ProcessID pe := nowSys]> (lastSysTime b)).
Proof.
  unfold entry_times, scan_entry. destruct (hProc pe) as [h|]; [|discriminate].
  intros ->. unfold sample_times. simpl. auto.
Qed.

(** What the loop leaves in the maps for an identifier, read off the
    table from its end: the last entry with readable times decides. *)
Lemma scan_frame nowSys entries id : forall b,
  (forall pe, In pe entries -> th32ProcessID pe = id -> entry_times pe = None) ->
  same_at id (snd (scan nowSys b entries)) b.
Proof.
  induction entries as [|pe rest IH]; intros b Hun; simpl; [split; reflexivity|].
  assert (H1 : same_at id (snd (scan_entry nowSys b pe)) b).
  { destruct (Z.eq_dec (th32ProcessID pe) id) as [E|E].
    - destruct (scan_entry_unreadable nowSys b pe (Hun pe (or_introl eq_refl) E))
        as (_ & -> & _). split; reflexivity.
    - apply scan_entry_frame. exact E. }
  destruct (scan_entry nowSys b pe) as [p b1]. simpl in H1.
  specialize (IH b1 (fun q Hq => Hun q (or_intror Hq))).
  destruct (scan nowSys b1 rest) as [ps b2]. simpl in *.
  destruct IH as [I1 I2], H1 as [J1 J2]. split; congruence.
Qed.

Lemma scan_recorded nowSys entries pe kernel user : forall b,
  List.NoDup (map th32ProcessID entries) -> In pe entries ->
  entry_times pe = Some (kernel, user) ->
  lastProcTime (snd (scan nowSys b entries)) !! th32ProcessID pe
    = Some (proc_now kernel user) /\
  lastSysTime (snd (scan nowSys b entries)) !! th32ProcessID pe = Some nowSys.
Proof.
  induction entries as [|q rest IH]; intros b Hnd Hin Ht; [contradiction|].
  simpl in Hnd. apply List.NoDup_cons_iff in Hnd. destruct Hnd as [Hq Hnd]. simpl.
  destruct Hin as [->|Hin].
  - destruct (scan_entry_readable nowSys b pe kernel user Ht) as [_ Hb].
    pose proof (scan_frame nowSys rest (th32ProcessID pe) (snd (scan_entry nowSys b pe))) as Hf.
    destruct (scan_entry nowSys b pe) as [p b1]. simpl in Hb, Hf.
    destruct (scan nowSys b1 rest) as [ps b2]. simpl in *.
    destruct Hf as [F1 F2].
    { intros q' Hq' E. exfalso. apply Hq. rewrite <- E. apply in_map. exact Hq'. }
    rewrite F1, F2, Hb. simpl. rewrite !lookup_insert_eq. auto.
  - destruct (scan_entry nowSys b q) as [p b1].
    specialize (IH b1 Hnd Hin Ht).
    destruct (scan nowSys b1 rest) as [ps b2]. exact IH.
Qed.

(** The rate is 0 throughout a table when, for every entry with readable
    times, the recorded system time is 0 or not below the current one. *)
Lemma scan_all_zero nowSys entries : forall b,
  (forall pe, In pe entries -> entry_times pe <> None ->
     map_get (lastSysTime b) (th32ProcessID pe) <= 0 \/
     nowSys <= map_get (lastSysTime b) (th32ProcessID pe)) ->
  Forall (fun p => cpu p = S754_zero false) (fst (scan nowSys b entries)).
Proof.
  induction entries as [|pe rest IH]; intros b Hb; simpl; [constructor|].
  assert (H1 : cpu (fst (scan_entry nowSys b pe)) = S754_zero false /\
               forall q, In q rest -> entry_times q <> None ->
                 map_get (lastSysTime (snd (scan_entry nowSys b pe))) (th32ProcessID q) <= 0 \/
                 nowSys <= map_get (lastSysTime (snd (scan_entry nowSys b pe))) (th32ProcessID q)).
  { destruct (entry_times pe) as [[kernel user]|] eqn:Et.
    - destruct (scan_entry_readable nowSys b pe kernel user Et) as [-> ->]. split.
      + apply sample_times_zero. apply Hb; [left; reflexivity|congruence].
      + intros q Hq Hr. simpl. unfold map_get.
        destruct (Z.eq_dec (th32ProcessID pe) (th32ProcessID q)) as [E|E].
        * rewrite E, lookup_insert_eq. simpl. lia.
        * rewrite lookup_insert_ne by exact E. apply Hb; [right; exact Hq|exact Hr].
    - destruct (scan_entry_unreadable nowSys b pe Et) as (-> & -> & _).
      split; [reflexivity|]. intros q Hq Hr. apply Hb; [right; exact Hq|exact Hr]. }
  destruct (scan_entry nowSys b pe) as [p b1]. simpl in H1. destruct H1 as [Hp Hb1].
  specialize (IH b1 Hb1). destruct (scan nowSys b1 rest) as [ps b2].
  constructor; assumption.
Qed.

Lemma scan_sys_keep nowSys entries id : forall b,
  lastSysTime b !! id = Some nowSys ->
  lastSysTime (snd (scan nowSys b entries)) !! id = Some nowSys.
Proof.
  induction entries as [|pe rest IH]; intros b Hb; simpl; [exact Hb|].
  assert (H1 : lastSysTime (snd (scan_entry nowSys b pe)) !! id = Some nowSys).
  { destruct (entry_times pe) as [[kernel user]|] eqn:Et.
    - destruct (scan_entry_readable nowSys b pe kernel user Et) as [_ ->]. simpl.
      destruct (Z.eq_dec (th32ProcessID pe) id) as [->|E].
      + apply lookup_insert_eq.
      + rewrite lookup_insert_ne by exact E. exact Hb.
    - destruct (scan_entry_unreadable nowSys b pe Et) as (_ & -> & _). exact Hb. }
  destruct (scan_entry nowSys b pe) as [p b1]. simpl in H1.
  specialize (IH b1 H1). destruct (scan nowSys b1 rest) as [ps b2]. exact IH.
Qed.

Lemma scan_sys_recorded nowSys entries pe : forall b,
  In pe entries -> entry_times pe <> None ->
  lastSysTime (snd (scan nowSys b entries)) !! th32ProcessID pe = Some nowSys.
Proof.
  induction entries as [|q rest IH]; intros b Hin Hr; [contradiction|]. simpl.
  destruct Hin as [->|Hin].
  - pose proof (scan_sys_keep nowSys rest (th32ProcessID pe) (snd (scan_entry nowSys b pe))) as Hk.
    destruct (entry_times pe) as [[kernel user]|] eqn:Et; [|congruence].
    destruct (scan_entry_readable nowSys b pe kernel user Et) as [_ Hb].
    destruct (scan_entry nowSys b pe) as [p b1]. simpl in Hb, Hk.
    destruct (scan nowSys b1 rest) as [ps b2]. simpl in *. apply Hk.
    rewrite Hb. simpl. apply lookup_insert_eq.
  - destruct (scan_entry nowSys b q) as [p b1]. specialize (IH b1 Hin Hr).
    destruct (scan nowSys b1 rest) as [ps b2]. exact IH.
Qed.

Lemma scan_sign nowSys b entries :
  is_ull nowSys -> Forall (fun p => has_sign false (cpu p)) (fst (scan nowSys b entries)).
Proof.
  intros Hs. revert b. induction entries as [|pe rest IH]; intros b; simpl; [constructor|].
  pose proof (scan_entry_sign nowSys b pe Hs) as Hp.
  destruct (scan_entry nowSys b pe) as [p b1].
  specialize (IH b1). destruct (scan nowSys b1 rest) as [ps b2].
  constructor; assumption.
Qed.

Lemma has_sign_false_not_below_zero x :
  has_sign false x -> is_nan x = false /\ SFltb x (S754_zero false) = false.
Proof. destruct x as [s|s| |s m e]; simpl; intros H; subst; try contradiction; auto. Qed.

Lemma GetProcesses_unfold {srt : StdSort} b os k entries :
  pt_snapshot os = Some entries ->
  GetProcesses b os k
  = (std_sort (by_key k) (fst (scan (table_now os) b entries)),
     snd (scan (table_now os) b entries)).
Proof.
  intros Hs. unfold GetProcesses, table_now. rewrite Hs.
  destruct (scan _ b entries); reflexivity.
Qed.

Section SamplingExtras.
Context {srt : StdSort}.

(** X2. Every entry of the process table gives exactly one record, with
    the identifier and the name of the entry, whether or not the process
    could be opened or queried. *)
Theorem X2_every_entry_listed :
  forall (b : Baselines) (os : ProcessTable) (k : bool) (entries : list ProcEntry),
    sort_contract srt ->
    pt_snapshot os = Some entries ->
    Permutation (map (fun pe => (th32ProcessID pe, szExeFile pe)) entries)
                (map (fun p => (pid p, name p)) (fst (GetProcesses b os k))) /\
    length (fst (GetProcesses b os k)) = length entries.
Proof.
  intros b os k entries [Hperm _] Hs.
  rewrite (GetProcesses_unfold b os k entries Hs). simpl fst.
  rewrite <- (scan_idents (table_now os) b entries).
  split.
  - apply Permutation_map. apply Hperm.
  - rewrite <- (Permutation_length (Hperm (by_key k) (fst (scan (table_now os) b entries)))).
    rewrite <- (length_map (fun p => (pid p, name p))), scan_idents, length_map.
    reflexivity.
Qed.

(** X3. After a call on a table with distinct identifiers, the baseline
    of every process whose times were read is the pair just sampled, whether
    or not a rate was computed from the old one; the baseline of any
    identifier with no readable entry in the table (a process that is gone,
    or one that could not be opened this time) is kept as it was. *)
Theorem X3_baselines_after_call :
  forall (b : Baselines) (os : ProcessTable) (k : bool) (entries : list ProcEntry),
    pt_snapshot os = Some entries ->
    List.NoDup (map th32ProcessID entries) ->
    let b' := snd (GetProcesses b os k) in
    (forall pe kernel user,
        In pe entries -> entry_times pe = Some (kernel, user) ->
        baseline_of b' (th32ProcessID pe) = Some (proc_now kernel user, table_now os)) /\
    (forall id,
        (forall pe, In pe entries -> th32ProcessID pe = id -> entry_times pe = None) ->
        lastProcTime b' !! id = lastProcTime b !! id /\
        lastSysTime b' !! id = lastSysTime b !! id).
Proof.
  intros b os k entries Hs Hnd b'. subst b'.
  rewrite (GetProcesses_unfold b os k entries Hs). simpl snd. split.
  - intros pe kernel user Hin Ht.
    destruct (scan_recorded (table_now os) entries pe kernel user b Hnd Hin Ht) as [H1 H2].
    unfold baseline_of. rewrite H1, H2. reflexivity.
  - intros id Hun. apply (scan_frame (table_now os) entries id b Hun).
Qed.

(** X4. The first call, on empty baseline maps, gives the rate 0 to every
    process of the table, whatever the table holds. *)
Theorem X4_first_call_all_zero :
  forall (os : ProcessTable) (k : bool),
    sort_contract srt ->
    Forall (fun p => cpu p = S754_zero false)
           (fst (GetProcesses (mkBaselines ∅ ∅) os k)).
Proof.
  intros os k [Hperm _]. destruct (pt_snapshot os) as [entries|] eqn:Hs.
  - rewrite (GetProcesses_unfold _ os k entries Hs). simpl fst.
    eapply Permutation_Forall; [apply Hperm|].
    apply scan_all_zero. intros pe _ _. left. unfold map_get. simpl.
    rewrite lookup_empty. simpl. lia.
  - unfold GetProcesses. rewrite Hs. constructor.
Qed.

(** X5. Two calls in a row: for a process whose times were read in both
    (identifiers distinct within each table), the rate of the second call is
    the formula on the values of the first call and of the second, provided
    the system time of the first call was not 0 and has advanced, and the
    CPU time of the process did not go back. What was recorded before the
    first call plays no part. *)
Theorem X5_rate_over_two_calls :
  forall (b : Baselines) (os1 os2 : ProcessTable) (k1 k2 : bool)
         (entries1 entries2 : list ProcEntry) (pe1 pe2 : ProcEntry)
         (kernel1 user1 kernel2 user2 : FILETIME),
    sort_contract srt ->
    pt_snapshot os1 = Some entries1 -> pt_snapshot os2 = Some entries2 ->
    List.NoDup (map th32ProcessID entries1) -> List.NoDup (map th32ProcessID entries2) ->
    In pe1 entries1 -> In pe2 entries2 -> th32ProcessID pe1 = th32ProcessID pe2 ->
    entry_times pe1 = Some (kernel1, user1) -> entry_times pe2 = Some (kernel2, user2) ->
    0 < table_now os1 -> table_now os1 < table_now os2 ->
    proc_now kernel1 user1 <= proc_now kernel2 user2 ->
    let b1 := snd (GetProcesses b os1 k1) in
    exists p, In p (fst (GetProcesses b1 os2 k2)) /\
      pid p = th32ProcessID pe2 /\
      cpu p = rate_formula (proc_now kernel2 user2) (proc_now kernel1 user1)
                           (table_now os2) (table_now os1).
Proof.
  intros b os1 os2 k1 k2 entries1 entries2 pe1 pe2 kernel1 user1 kernel2 user2
         [Hperm _] Hs1 Hs2 Hnd1 Hnd2 Hin1 Hin2 Hid Ht1 Ht2 H0 Hlt Hc b1.
  subst b1. rewrite (GetProcesses_unfold b os1 k1 entries1 Hs1). simpl snd.
  set (b1 := snd (scan (table_now os1) b entries1)).
  rewrite (GetProcesses_unfold b1 os2 k2 entries2 Hs2). simpl fst.
  destruct (scan_recorded (table_now os1) entries1 pe1 kernel1 user1 b Hnd1 Hin1 Ht1)
    as [R1 R2]. fold b1 in R1, R2. rewrite Hid in R1, R2.
  exists (fst (scan_entry (table_now os2) b1 pe2)).
  destruct (scan_entry_ident (table_now os2) b1 pe2) as [Hp _].
  destruct (scan_entry_readable (table_now os2) b1 pe2 kernel2 user2 Ht2) as [Hcpu _].
  split; [|split; [exact Hp|]].
  - eapply Permutation_in; [apply Hperm|].
    apply (scan_member (table_now os2) entries2 pe2 Hnd2 Hin2 b1 b1). split; reflexivity.
  - rewrite Hcpu.
    apply sample_times_rate; try assumption.
    + apply wrap64_range.
    + split; [|exact Hc]. apply wrap64_range.
Qed.

(** X6. No rate in the list is a NaN and none is below 0. *)
Theorem X6_rates_not_negative :
  forall (b : Baselines) (os : ProcessTable) (k : bool),
    sort_contract srt ->
    Forall (fun p => is_nan (cpu p) = false /\ SFltb (cpu p) (S754_zero false) = false)
           (fst (GetProcesses b os k)).
Proof.
  intros b os k [Hperm _]. destruct (pt_snapshot os) as [entries|] eqn:Hs.
  - rewrite (GetProcesses_unfold _ os k entries Hs). simpl fst.
    eapply Permutation_Forall; [apply Hperm|].
    eapply Forall_impl; [apply (scan_sign (table_now os) b entries); apply wrap64_range|].
    intros p Hp. apply has_sign_false_not_below_zero. exact Hp.
  - unfold GetProcesses. rewrite Hs. constructor.
Qed.

(** X7. A second call on the same table with the same system time, made
    right after a first, gives the rate 0 to every process: no time has
    passed for any of them. *)
Theorem X7_same_time_all_zero :
  forall (b : Baselines) (os : ProcessTable) (k1 k2 : bool),
    sort_contract srt ->
    Forall (fun p => cpu p = S754_zero false)
           (fst (GetProcesses (snd (GetProcesses b os k1)) os k2)).
Proof.
  intros b os k1 k2 [Hperm _]. destruct (pt_snapshot os) as [entries|] eqn:Hs.
  - rewrite (GetProcesses_unfold b os k1 entries Hs). simpl snd.
    rewrite (GetProcesses_unfold _ os k2 entries Hs). simpl fst.
    eapply Permutation_Forall; [apply Hperm|].
    apply scan_all_zero. intros pe Hin Hr. right. unfold map_get.
    rewrite (scan_sys_recorded (table_now os) entries pe b Hin Hr). simpl. lia.
  - unfold GetProcesses at 1. rewrite Hs. unfold GetProcesses. rewrite Hs. constructor.
Qed.

End SamplingExtras.

(** ** The baseline maps only grow *)

Lemma scan_dom nowSys entries : forall b,
  dom (lastProcTime (snd (scan nowSys b entries)))
    = dom (lastProcTime b) ∪ timed_ids entries /\
  dom (lastSysTime (snd (scan nowSys b entries)))
    = dom (lastSysTime b) ∪ timed_ids entries.
Proof.
  unfold timed_ids.
  induction entries as [|pe rest IH]; intros b; simpl.
  - rewrite !(right_id_L ∅ (∪)). auto.
  - destruct (entry_times pe) as [[kernel user]|] eqn:Et.
    + destruct (scan_entry_readable nowSys b pe kernel user Et) as [_ Hb].
      destruct (scan_entry nowSys b pe) as [p b1]. simpl in Hb. subst b1.
      match goal with |- context [scan nowSys ?b1 rest] =>
        specialize (IH b1); destruct (scan nowSys b1 rest) as [ps b2] end.
      cbn [fst snd lastProcTime lastSysTime map list_to_set] in *.
      destruct IH as [-> ->]. rewrite !dom_insert_L.
      rewrite !(comm_L (∪) {[th32ProcessID pe]} (dom _)), <- !(assoc_L (∪)). auto.
    + destruct (scan_entry_unreadable nowSys b pe Et) as (_ & Hb & _).
      destruct (scan_entry nowSys b pe) as [p b1]. simpl in Hb. subst b1.
      specialize (IH b). destruct (scan nowSys b rest) as [ps b2]. exact IH.
Qed.

(** X15. A call never removes a baseline: after it the two maps hold the
    identifiers they held before, and besides exactly the identifiers of the
    processes whose times it could read. A process that has exited keeps its
    entry. *)
Theorem X15_baselines_only_grow {srt : StdSort} :
  forall (b : Baselines) (os : ProcessTable) (k : bool),
    let b' := snd (GetProcesses b os k) in
    let added := match pt_snapshot os with
                 | Some entries => timed_ids entries
                 | None => ∅
                 end in
    dom (lastProcTime b') = dom (lastProcTime b) ∪ added /\
    dom (lastSysTime b') = dom (lastSysTime b) ∪ added.
Proof.
  intros b os k. unfold GetProcesses. destruct (pt_snapshot os) as [entries|]; simpl.
  - match goal with |- context [scan ?s b entries] =>
      pose proof (scan_dom s entries b) as H; destruct (scan s b entries) as [l b'] end.
    exact H.
  - rewrite !(right_id_L ∅ (∪)). auto.
Qed.

(** ** More on keys *)

Section KeyExtras.
Context {loc : CLocale} {srt : StdSort}.

Lemma cycle_view w t w' f :
  cycle w t = Some (w', f) ->
  exists kbd, poll_key (Z.of_nat (length (filtered w))) (view w) (console w ++ typed t)
              = Some (view w', kbd) /\ console w' = kbd.
Proof.
  unfold cycle. destruct (poll_key _ _ _) as [[v kbd]|]; [|discriminate].
  destruct (showHelp v).
  - intros [= <- _]. eauto.
  - destruct (GetProcesses _ _ _) as [all b]. destruct (GetSystemCPU _ _) as [c sp].
    intros [= <- _]. eauto.
Qed.

(** X8. As long as the number of rows in the filtered list stays the
    same from one iteration to the next, no sequence of keys takes the scroll
    offset out of [0, max(0, rows - 15)]. *)
Theorem X8_scroll_in_range_while_rows_steady :
  forall (ts : list Tick) (w : World) (n : nat),
    length (filtered w) = n ->
    scroll_in_range (scroll (view w)) (Z.of_nat n) ->
    Forall (fun w' => length (filtered w') = n) (worlds w ts) ->
    Forall (fun w' => scroll_in_range (scroll (view w')) (Z.of_nat n)) (worlds w ts).
Proof.
  induction ts as [|t ts IH]; intros w n Hn Hs Hall; simpl in *; [constructor|].
  destruct (cycle w t) as [[w' f]|] eqn:Hc; [|constructor].
  apply List.Forall_cons_iff in Hall. destruct Hall as [Hn' Hall].
  destruct (cycle_view w t w' f Hc) as (kbd & Hk & _).
  rewrite Hn in Hk.
  pose proof (poll_key_scroll_in_range _ _ _ _ _ Hs Hk) as Hs'.
  constructor; [exact Hs'|]. apply IH; assumption.
Qed.

(** X9. In search mode, typing a printable character and then Backspace
    gives back the view as it was; Backspace on the empty text does
    nothing. *)
Theorem X9_type_then_backspace :
  forall (nf nf' : Z) (v : View) (ch : Z) (kbd : list Z),
    searchMode v = true -> iswprint ch = true ->
    ch <> KEY_ESC -> ch <> KEY_ENTER -> ch <> KEY_BACKSPACE ->
    (exists v1,
        poll_key nf v (ch :: KEY_BACKSPACE :: kbd) = Some (v1, KEY_BACKSPACE :: kbd) /\
        searchFilter v1 = searchFilter v ++ [to_wchar ch] /\
        poll_key nf' v1 (KEY_BACKSPACE :: kbd) = Some (v, kbd)) /\
    (searchFilter v = [] -> poll_key nf v (KEY_BACKSPACE :: kbd) = Some (v, kbd)).
Proof.
  intros nf nf' v ch kbd Hs Hp Hesc Hent Hbs. split.
  - apply Z.eqb_neq in Hesc, Hent, Hbs.
    assert (Hv1 : search_key v ch
                  = mkView (sortByCpu v) (showHelp v) (scroll v) (searchMode v)
                           (searchFilter v ++ [to_wchar ch])).
    { unfold search_key. rewrite Hesc, Hent, Hbs, Hp. reflexivity. }
    exists (search_key v ch). unfold poll_key. rewrite Hs.
    split; [reflexivity|]. rewrite Hv1. split; [reflexivity|].
    cbn [searchMode]. rewrite Hs. f_equal. f_equal.
    unfold search_key.
    change (KEY_BACKSPACE =? KEY_ESC) with false.
    change (KEY_BACKSPACE =? KEY_ENTER) with false.
    change (KEY_BACKSPACE =? KEY_BACKSPACE) with true.
    cbn [searchFilter sortByCpu showHelp scroll searchMode].
    destruct (searchFilter v ++ [to_wchar ch]) as [|c s] eqn:E;
      [destruct (searchFilter v); discriminate|].
    rewrite <- E. unfold pop_back. rewrite removelast_last.
    destruct v; simpl in *; subst; reflexivity.
  - intros He. unfold poll_key. rewrite Hs. unfold search_key. simpl. rewrite He.
    reflexivity.
Qed.

(** X10. In search mode every key, whatever its code, is taken as one
    code from the console and changes at most the search flag and the filter
    text: the sort key, the help flag and the scroll offset stay. *)
Theorem X10_search_mode_frame :
  forall (nf : Z) (v : View) (ch : Z) (kbd : list Z),
    searchMode v = true ->
    exists v', poll_key nf v (ch :: kbd) = Some (v', kbd) /\
      sortByCpu v' = sortByCpu v /\ showHelp v' = showHelp v /\ scroll v' = scroll v /\
      (searchMode v' = false <-> ch = KEY_ESC \/ ch = KEY_ENTER).
Proof.
  intros nf v ch kbd Hs. eexists. unfold poll_key. rewrite Hs.
  split; [reflexivity|]. unfold search_key.
  destruct (Z.eqb_spec ch KEY_ESC) as [E1|E1]; [simpl; intuition|].
  destruct (Z.eqb_spec ch KEY_ENTER) as [E2|E2]; [simpl; intuition|].
  assert (Hno : ~ (ch = KEY_ESC \/ ch = KEY_ENTER)) by tauto.
  destruct (ch =? KEY_BACKSPACE); [destruct (searchFilter v)|destruct (iswprint ch)];
    simpl; rewrite ?Hs; (repeat split; try reflexivity; try discriminate; try tauto).
Qed.

(** X11. An arrow key pressed in search mode does not scroll: its prefix
    code is read as a key of its own, and its second code is left in the
    console to be read by the next iteration, where it is typed into the
    filter text as a letter (H for Up, P for Down). *)
Theorem X11_arrow_in_search_mode :
  ascii_printable loc ->
  forall (nf nf' : Z) (v : View) (prefix code : Z) (kbd : list Z),
    searchMode v = true -> prefix = 0 \/ prefix = 224 ->
    code = KEY_UP \/ code = KEY_DOWN ->
    exists v1 v2,
      poll_key nf v (prefix :: code :: kbd) = Some (v1, code :: kbd) /\
      poll_key nf' v1 (code :: kbd) = Some (v2, kbd) /\
      scroll v2 = scroll v /\ searchMode v2 = true /\
      searchFilter v2 = searchFilter v1 ++ [code].
Proof.
  intros Hpr nf nf' v prefix code kbd Hs Hp Hc.
  assert (Hpc : iswprint code = true)
    by (apply Hpr; destruct Hc as [-> | ->]; unfold KEY_UP, KEY_DOWN; lia).
  assert (Hs1 : searchMode (search_key v prefix) = true /\
                scroll (search_key v prefix) = scroll v).
  { unfold search_key, KEY_ESC, KEY_ENTER, KEY_BACKSPACE.
    destruct Hp as [-> | ->]; simpl;
      match goal with |- context [iswprint ?c] => destruct (iswprint c) end;
      simpl; auto. }
  destruct Hs1 as [Hs1 Hsc1].
  exists (search_key v prefix), (search_key (search_key v prefix) code).
  unfold poll_key. rewrite Hs, Hs1. split; [reflexivity|]. split; [reflexivity|].
  unfold search_key at 1 3 5.
  destruct Hc as [-> | ->]; simpl; rewrite Hpc; simpl; rewrite Hs1, Hsc1; auto.
Qed.

(** X12. With the help screen up, [/] starts a search all the same; from
    then on [h] is a character of the filter text, not the help key: the help
    screen stays up and nothing is sampled. *)
Theorem X12_search_under_help :
  ascii_printable loc ->
  forall (w : World) (t1 t2 : Tick),
    console w = [] -> searchMode (view w) = false -> showHelp (view w) = true ->
    exists w',
      run w [press KEY_SLASH t1; press KEY_h t2] = Some w' /\
      showHelp (view w') = true /\ searchMode (view w') = true /\
      searchFilter (view w') = [KEY_h] /\
      baselines w' = baselines w /\ sysprev w' = sysprev w /\ filtered w' = filtered w.
Proof.
  intros Hpr w t1 t2 Hc Hs Hh.
  assert (Hph : iswprint KEY_h = true) by (apply Hpr; unfold KEY_h; lia).
  destruct (cycle_one_key w (press KEY_SLASH t1) KEY_SLASH Hc eq_refl)
    as (w1 & f1 & E1 & V1 & C1 & _ & F1); [right; unfold KEY_SLASH; lia|].
  rewrite Hs in V1. unfold plain_key in V1. simpl in V1.
  assert (Hh1 : showHelp (view w1) = true) by (rewrite V1; exact Hh).
  destruct (F1 Hh1) as (B1 & S1 & _ & L1).
  destruct (cycle_one_key w1 (press KEY_h t2) KEY_h C1 eq_refl)
    as (w2 & f2 & E2 & V2 & C2 & _ & F2); [left; rewrite V1; reflexivity|].
  rewrite V1 in V2. simpl in V2. unfold search_key in V2. simpl in V2. rewrite Hph in V2.
  assert (Hh2 : showHelp (view w2) = true) by (rewrite V2; exact Hh).
  destruct (F2 Hh2) as (B2 & S2 & _ & L2).
  exists w2. simpl run. rewrite E1, E2. rewrite V2. simpl.
  repeat split; try reflexivity; try assumption; congruence.
Qed.


(** X14. From the initial state, whatever is typed and whatever the OS
    answers, the scroll offset is never negative and the two baseline maps
    hold the same identifiers. *)
Theorem X14_loop_invariant :
  forall (ts : list Tick) (w : World),
    run world_init ts = Some w ->
    0 <= scroll (view w) /\
    dom (lastProcTime (baselines w)) = dom (lastSysTime (baselines w)).
Proof.
  intros ts w Hr. exact (run_invariant ts world_init w world_init_invariant Hr).
Qed.

End KeyExtras.

(** ** More on filtering *)

Lemma filter_sublist_impl {A} (f g : A -> bool) (l : list A) :
  (forall x, f x = true -> g x = true) -> sublist (List.filter f l) (List.filter g l).
Proof.
  intros Hfg. induction l as [|x l IH]; simpl; [constructor|].
  destruct (f x) eqn:Ef.
  - rewrite (Hfg x Ef). constructor. exact IH.
  - destruct (g x); [constructor|]; exact IH.
Qed.

Section FilterExtras.
Context {loc : CLocale}.

Lemma contains_ci_part name a flt c :
  contains_ci name (a ++ flt ++ c) -> contains_ci name flt.
Proof.
  unfold contains_ci. intros (pre & post & H). rewrite !map_app in H.
  exists (pre ++ map towlower a), (map towlower c ++ post).
  rewrite H. rewrite <- !app_assoc. reflexivity.
Qed.

(** X16. A longer filter text never lists more: the rows kept for a text
    are among the rows kept for any stretch of it, in the same order. So
    each character typed can only drop rows, and each Backspace can only
    bring rows back. Filtering twice by a text is filtering once. *)
Theorem X16_longer_text_narrows :
  forall (a flt c : wstring) (l : list ProcessInfo),
    sublist (apply_filter (a ++ flt ++ c) l) (apply_filter flt l) /\
    apply_filter flt (apply_filter flt l) = apply_filter flt l.
Proof.
  intros a flt c l. split.
  - unfold apply_filter. apply filter_sublist_impl. intros p Hp.
    apply MatchesFilter_spec. apply MatchesFilter_spec in Hp.
    eapply contains_ci_part. exact Hp.
  - unfold apply_filter. induction l as [|p l IH]; simpl; [reflexivity|].
    destruct (MatchesFilter (name p) flt) eqn:E; simpl; rewrite ?E, IH; reflexivity.
Qed.

End FilterExtras.

(** ** More on the rows drawn *)

Lemma visible_rows_le s l : (length (visible_rows s l) <= 15)%nat.
Proof.
  unfold visible_rows. destruct (s <? 0); simpl; [lia|].
  rewrite length_firstn. unfold page_size. lia.
Qed.

Lemma visible_rows_sublist s l : sublist (visible_rows s l) l.
Proof.
  unfold visible_rows. destruct (s <? 0); [apply sublist_nil_l|].
  etransitivity; [apply sublist_take|apply sublist_drop].
Qed.

Lemma visible_rows_length s l :
  0 <= s ->
  length (visible_rows s l)
  = Z.to_nat (Z.min page_size (Z.max 0 (Z.of_nat (length l) - s))).
Proof.
  intros Hs. unfold visible_rows. destruct (Z.ltb_spec s 0); [lia|].
  rewrite length_firstn, length_skipn. unfold page_size. lia.
Qed.

Lemma visible_rows_lookup s l i :
  0 <= s ->
  visible_rows s l !! i = if (i <? 15)%nat then l !! (Z.to_nat s + i)%nat else None.
Proof.
  intros Hs. unfold visible_rows. destruct (Z.ltb_spec s 0); [lia|].
  change (Z.to_nat page_size) with 15%nat.
  change (firstn 15 (skipn (Z.to_nat s) l)) with (take 15 (drop (Z.to_nat s) l)).
  destruct (Nat.ltb_spec i 15) as [Hi|Hi].
  - rewrite lookup_take_lt by exact Hi. apply lookup_drop.
  - apply lookup_take_ge. exact Hi.
Qed.

(** X17. Rows drawn: row [i] on the screen is row [scroll + i] of the
    filtered list, for [i] from 0 to 14, and nothing is drawn below it, so the
    rows are the stretch of the list that starts at the offset, never more
    than 15 of them. With the offset in its range that is a full page of 15,
    or the whole list when it is shorter; with an offset at or past the end
    of the list, or a negative one, no row is drawn. *)
Theorem X17_rows_drawn :
  forall (s : Z) (l : list ProcessInfo),
    (0 <= s ->
       forall i, visible_rows s l !! i
                 = if (i <? 15)%nat then l !! (Z.to_nat s + i)%nat else None) /\
    (length (visible_rows s l) <= 15)%nat /\
    (scroll_in_range s (Z.of_nat (length l)) ->
       length (visible_rows s l) = Nat.min 15 (length l)) /\
    (Z.of_nat (length l) <= s \/ s < 0 -> visible_rows s l = []).
Proof.
  intros s l. split; [|split; [|split]].
  - intros Hs i. apply visible_rows_lookup. exact Hs.
  - apply visible_rows_le.
  - unfold scroll_in_range, page_size. intros [H0 H1].
    rewrite visible_rows_length by exact H0. unfold page_size. lia.
  - intros Hcase. unfold visible_rows. destruct (Z.ltb_spec s 0); [reflexivity|].
    destruct Hcase as [Hle|Hneg]; [|lia].
    rewrite skipn_all2 by lia. apply firstn_nil.
Qed.

(** X17 at work on twenty records at offset 3: the top row is record 4,
    the bottom row record 18, there is no sixteenth row, and the page is
    full; at offset 20 and at offset -1 nothing is drawn. *)
Lemma X17_rows_drawn_witness :
  visible_rows 3 twenty_records !! 0%nat = twenty_records !! 3%nat /\
  visible_rows 3 twenty_records !! 14%nat = twenty_records !! 17%nat /\
  visible_rows 3 twenty_records !! 15%nat = None /\
  length (visible_rows 3 twenty_records) = Nat.min 15 (length twenty_records) /\
  visible_rows 20 twenty_records = [] /\
  visible_rows (-1) twenty_records = [].
Proof.
  destruct (X17_rows_drawn 3 twenty_records) as (Hrow & _ & Hfull & _).
  split; [exact (Hrow ltac:(lia) 0%nat)|].
  split; [exact (Hrow ltac:(lia) 14%nat)|].
  split; [exact (Hrow ltac:(lia) 15%nat)|].
  split; [apply Hfull; unfold scroll_in_range, page_size; simpl; lia|].
  split.
  - apply (proj2 (proj2 (proj2 (X17_rows_drawn 20 twenty_records)))). left. simpl. lia.
  - apply (proj2 (proj2 (proj2 (X17_rows_drawn (-1) twenty_records)))). right. lia.
Defined.

Lemma StronglySorted_sublist {A} (R : A -> A -> Prop) (l' l : list A) :
  sublist l' l -> StronglySorted R l -> StronglySorted R l'.
Proof.
  induction 1 as [|x l1 l2 Hsub IH|x l1 l2 Hsub IH]; intros Hs.
  - constructor.
  - apply StronglySorted_inv in Hs. destruct Hs as [Hs Hx].
    constructor; [apply IH; exact Hs|].
    rewrite List.Forall_forall in *. intros y Hy. apply Hx.
    apply list_elem_of_In. eapply elem_of_sublist; [|exact Hsub].
    apply list_elem_of_In. exact Hy.
  - apply StronglySorted_inv in Hs. apply IH. apply Hs.
Qed.

Section FrameExtras.
Context {loc : CLocale} {srt : StdSort}.

(** X18. What an iteration draws when the help screen is not up: at most
    15 rows; each of them a record of the list just sampled whose name
    contains the filter text shown in the header; in descending order of the
    sort key shown in the header. *)
Theorem X18_table_frame :
  forall (w : World) (t : Tick) (w' : World)
         (cpuUsage : spec_float) (sortMode : bool) (filterText : wstring)
         (prompt : bool) (rows : list ProcessInfo),
    sort_contract srt ->
    cycle w t = Some (w', TableFrame cpuUsage sortMode filterText prompt rows) ->
    sortMode = sortByCpu (view w') /\ filterText = searchFilter (view w') /\
    prompt = searchMode (view w') /\
    (length rows <= 15)%nat /\
    (forall p, In p rows -> In p (allProcesses w') /\ contains_ci (name p) filterText) /\
    (if sortMode then descending_cpu rows else descending_memory rows).
Proof.
  intros w t w' cpuUsage sortMode filterText prompt rows Hsort. unfold cycle.
  destruct (poll_key _ _ _) as [[v kbd]|]; [|discriminate].
  destruct (showHelp v); [discriminate|].
  pose proof (GetProcesses_no_nan Hsort (baselines w) (os_table t) (sortByCpu v)) as Hn.
  pose proof (GetProcesses_ordered Hsort (baselines w) (os_table t) (sortByCpu v)) as Ho.
  destruct (GetProcesses _ _ _) as [all b]. destruct (GetSystemCPU _ _) as [c sp].
  simpl in Hn, Ho. intros [= <- <- <- <- <- <-]. simpl.
  pose proof (visible_rows_le (scroll v) (apply_filter (searchFilter v) all)) as Hlen.
  pose proof (visible_rows_sublist (scroll v) (apply_filter (searchFilter v) all)) as Hsub.
  split; [reflexivity|]. split; [reflexivity|]. split; [reflexivity|].
  split; [exact Hlen|]. split.
  - intros p Hp. apply list_elem_of_In in Hp.
    pose proof (elem_of_sublist _ _ _ Hp Hsub) as Hp'. apply list_elem_of_In in Hp'.
    unfold apply_filter in Hp'. apply List.filter_In in Hp'. destruct Hp' as [Hin Hm].
    split; [exact Hin|]. apply MatchesFilter_spec. exact Hm.
  - assert (Hof : ordered_by (by_key (sortByCpu v)) (apply_filter (searchFilter v) all))
      by (apply filter_ordered; exact Ho).
    assert (Hnf : no_nan (apply_filter (searchFilter v) all))
      by (apply no_nan_filter; exact Hn).
    apply ordered_descending.
    + unfold no_nan in *. rewrite List.Forall_forall in *. intros p Hp. apply Hnf.
      apply list_elem_of_In. eapply elem_of_sublist; [|exact Hsub].
      apply list_elem_of_In. exact Hp.
    + unfold ordered_by in *. eapply StronglySorted_sublist; eassumption.
Qed.

End FrameExtras.

(** ** The order when no two records tie *)

Lemma by_key_strict_weak_no_ties k l :
  (forall a b, In a l -> In b l ->
     by_key k a b = false -> by_key k b a = false -> a = b) ->
  strict_weak (by_key k) l.
Proof.
  intros Hanti.
  assert (Hirr : forall a, by_key k a a = false)
    by (intros a; destruct k; simpl; [apply gt_irrefl|apply Z.ltb_irrefl]).
  constructor.
  - intros a _. apply Hirr.
  - intros a b c _ _ _. destruct k; simpl.
    + apply gt_trans.
    + intros H1 H2. apply Z.ltb_lt in H1, H2. apply Z.ltb_lt. lia.
  - intros a b c Ha Hb Hc H1 H2 H3 H4.
    rewrite (Hanti a b Ha Hb H1 H2), (Hanti b c Hb Hc H3 H4). auto.
Qed.

Lemma ordered_unique (comp : ProcessInfo -> ProcessInfo -> bool) :
  forall l1 l2,
    Permutation l1 l2 -> ordered_by comp l1 -> ordered_by comp l2 ->
    (forall a b, In a l1 -> In b l1 -> comp a b = false -> comp b a = false -> a = b) ->
    l1 = l2.
Proof.
  unfold ordered_by.
  induction l1 as [|h1 t1 IH]; intros l2 Hp Hs1 Hs2 Hanti.
  - apply Permutation_nil in Hp. congruence.
  - destruct l2 as [|h2 t2]; [apply Permutation_sym, Permutation_nil in Hp; discriminate|].
    apply StronglySorted_inv in Hs1, Hs2.
    destruct Hs1 as [Hs1 Hh1], Hs2 as [Hs2 Hh2].
    rewrite List.Forall_forall in Hh1, Hh2.
    assert (Hin1 : In h1 (h2 :: t2))
      by (eapply Permutation_in; [exact Hp|left; reflexivity]).
    assert (Hin2 : In h2 (h1 :: t1))
      by (eapply Permutation_in; [apply Permutation_sym; exact Hp|left; reflexivity]).
    assert (Heq : h1 = h2).
    { destruct Hin1 as [E|Hin1]; [congruence|].
      destruct Hin2 as [E|Hin2]; [congruence|].
      apply Hanti; [left; reflexivity|right; exact Hin2| |].
      - apply Hh2. exact Hin1.
      - apply Hh1. exact Hin2. }
    subst h2. f_equal. apply IH; try assumption.
    + eapply Permutation_cons_inv. exact Hp.
    + intros a b Ha Hb. apply Hanti; right; assumption.
Qed.

(** X19. When no two different records tie on the active key, the order
    of the list does not depend on how the library sorts: any two functions
    that meet the contract of [std::sort] return the same list. *)
Theorem X19_order_without_ties :
  forall (s1 s2 : StdSort) (k : bool) (l : list ProcessInfo),
    sort_contract s1 -> sort_contract s2 ->
    (forall a b, In a l -> In b l ->
       by_key k a b = false -> by_key k b a = false -> a = b) ->
    @std_sort s1 (by_key k) l = @std_sort s2 (by_key k) l.
Proof.
  intros s1 s2 k l [P1 O1] [P2 O2] Hanti.
  pose proof (by_key_strict_weak_no_ties k l Hanti) as Hsw.
  apply (ordered_unique (by_key k)).
  - etransitivity; [apply Permutation_sym, P1|apply P2].
  - apply O1. exact Hsw.
  - apply O2. exact Hsw.
  - intros a b Ha Hb. apply Hanti.
    + eapply Permutation_in; [apply Permutation_sym, (P1 (by_key k) l)|exact Ha].
    + eapply Permutation_in; [apply Permutation_sym, (P1 (by_key k) l)|exact Hb].
Qed.

Lemma reversing_sort_contract : sort_contract reversing_std_sort.
Proof.
  split; simpl.
  - intros comp l. rewrite <- insertion_sort_perm. apply Permutation_rev.
  - intros comp l Hsw. apply insertion_sort_ordered.
    destruct Hsw as [H1 H2 H3].
    constructor; intros; [apply H1|eapply H2|eapply H3];
      try eassumption; try (apply in_rev; assumption).
Qed.

(** X19 at work: two records with different rates, sorted by the
    insertion sort and by the insertion sort of the reversed list. *)
Lemma X19_order_without_ties_witness :
  @std_sort insertion_std_sort (by_key true)
     [mkProcessInfo 1 [97] 10 (double_of_Z 5); mkProcessInfo 2 [98] 30 (double_of_Z 7)]
  = @std_sort reversing_std_sort (by_key true)
     [mkProcessInfo 1 [97] 10 (double_of_Z 5); mkProcessInfo 2 [98] 30 (double_of_Z 7)].
Proof.
  apply X19_order_without_ties;
    [apply insertion_sort_contract|apply reversing_sort_contract|].
  intros a b [<-|[<-|[]]] [<-|[<-|[]]]; vm_compute; congruence.
Defined.

(** ** More on the system-wide rate *)

Lemma sys_calls_failures n : forall prev,
  sys_calls prev (repeat None n) = (repeat cpu_unavailable n, prev).
Proof.
  induction n as [|n IH]; intros prev; simpl; [reflexivity|].
  rewrite IH. reflexivity.
Qed.

Lemma sys_calls_app a1 : forall prev a2,
  sys_calls prev (a1 ++ a2)
  = (fst (sys_calls prev a1) ++ fst (sys_calls (snd (sys_calls prev a1)) a2),
     snd (sys_calls (snd (sys_calls prev a1)) a2)).
Proof.
  induction a1 as [|a a1 IH]; intros prev a2; simpl.
  - destruct (sys_calls prev a2); reflexivity.
  - destruct (GetSystemCPU prev a) as [r p1]. rewrite IH.
    destruct (sys_calls p1 a1) as [rs p2]. simpl.
    destruct (sys_calls p2 a2); reflexivity.
Qed.

(** X20. A call that cannot read the times returns [-1] and leaves the
    remembered sample alone, so the next call that can read them measures the
    whole stretch since the last good sample; and what a good call returns
    depends on that last good sample and the new one only. *)
Theorem X20_failed_reads_are_skipped :
  forall (prev : SysPrev) (s1 s2 : SystemTimes) (n : nat),
    sys_calls prev (Some s1 :: repeat None n ++ [Some s2])
    = (fst (GetSystemCPU prev (Some s1))
         :: repeat cpu_unavailable n
         ++ [fst (GetSystemCPU (mkSysPrev (st_idle s1) (st_kernel s1) (st_user s1))
                               (Some s2))],
       mkSysPrev (st_idle s2) (st_kernel s2) (st_user s2)).
Proof.
  intros prev s1 s2 n. cbn [sys_calls].
  rewrite (GetSystemCPU_eq prev s1). cbv zeta.
  rewrite sys_calls_app, sys_calls_failures. cbn [fst snd sys_calls].
  rewrite (GetSystemCPU_eq _ s2). cbv zeta. cbn [fst snd]. reflexivity.
Qed.

(** X21. An interval in which the idle time advanced exactly as much as
    the kernel+user time reads 0%. *)
Theorem X21_idle_interval :
  forall (prev : SysPrev) (now : SystemTimes),
    wrap64 (wrap64 (FileTimeToULL (st_kernel now) + FileTimeToULL (st_user now))
            - wrap64 (FileTimeToULL (prevKernel prev) + FileTimeToULL (prevUser prev)))
    = wrap64 (FileTimeToULL (st_idle now) - FileTimeToULL (prevIdle prev)) ->
    fst (GetSystemCPU prev (Some now)) = S754_zero false.
Proof.
  intros prev now Heq. rewrite GetSystemCPU_eq. cbv zeta. cbn [fst].
  rewrite <- Heq.
  set (sys := wrap64 (wrap64 _ - wrap64 _)).
  destruct (Z.eqb_spec sys 0) as [E|E]; [reflexivity|].
  unfold sys_formula. rewrite Z.sub_diag. change (wrap64 0) with 0.
  pose proof (wrap64_range (wrap64 (FileTimeToULL (st_kernel now) + FileTimeToULL (st_user now))
            - wrap64 (FileTimeToULL (prevKernel prev) + FileTimeToULL (prevUser prev)))) as [H0 H1].
  fold sys in H0, H1.
  destruct (float_of_Z_finite sys ltac:(lia)) as (m & e & ->).
  reflexivity.
Qed.

Lemma X21_idle_interval_witness :
  fst (GetSystemCPU (mkSysPrev (filetime_of 100) (filetime_of 50) (filetime_of 50))
                    (Some (system_times 130 70 60))) = S754_zero false.
Proof. apply X21_idle_interval. reflexivity. Defined.

(** ** Normal numbers *)

Section NormalFacts.
Variables prec emax : Z.
Hypothesis Hprec : 0 < prec.
Hypothesis Hemax : prec < emax.

Lemma Zdigits2_eq x k : 0 < k -> 2 ^ (k - 1) <= x < 2 ^ k -> Zdigits2 x = k.
Proof.
  intros Hk [Hlo Hhi].
  assert (Hx : 0 < x) by (pose proof (Z.pow_pos_nonneg 2 (k - 1)); lia).
  pose proof (Zdigits2_bounds x Hx) as [Dlo Dhi].
  pose proof (Zdigits2_pos x Hx) as Hd.
  destruct (Z.lt_trichotomy (Zdigits2 x) k) as [Hlt|[E|Hgt]]; [|exact E|].
  - assert (2 ^ Zdigits2 x <= 2 ^ (k - 1)) by (apply Z.pow_le_mono_r; lia). lia.
  - assert (2 ^ k <= 2 ^ (Zdigits2 x - 1)) by (apply Z.pow_le_mono_r; lia). lia.
Qed.

(** A mantissa of at least [prec] digits comes out of [shr_fexp] with
    exactly [prec] digits. *)
Lemma shr_fexp_normal x e l :
  0 < x -> SpecFloat.emin prec emax <= Zdigits2 x + e - prec -> prec <= Zdigits2 x ->
  2 ^ (prec - 1) <= shr_m (fst (shr_fexp prec emax x e l)).
Proof.
  intros Hx Hmin Hd. unfold shr_fexp, fexp. rewrite Z.max_l by lia.
  pose proof (Zdigits2_bounds x Hx) as [Hlo Hhi].
  assert (Hm : shr_m (shr_record_of_loc x l) = x) by (destruct l as [|[]]; reflexivity).
  replace (Zdigits2 x + e - prec - e) with (Zdigits2 x - prec) by lia.
  destruct (Zdigits2 x - prec) as [|n|n] eqn:En; simpl shr; simpl fst; try lia.
  - rewrite Hm. replace prec with (Zdigits2 x) by lia. exact Hlo.
  - rewrite iter_shr_1_m by lia. rewrite Hm.
    assert (Hsplit : Zdigits2 x - 1 = (prec - 1) + Z.pos n) by lia.
    rewrite Hsplit, Z.pow_add_r in Hlo by lia.
    assert (Hp : 0 < 2 ^ Z.pos n) by (apply Z.pow_pos_nonneg; lia).
    apply Z.div_le_lower_bound; lia.
Qed.

Lemma binary_round_aux_normal sx mx ex lx :
  0 < mx -> prec <= Zdigits2 mx ->
  SpecFloat.emin prec emax <= 1 + ex - prec ->
  ex + (Zdigits2 mx - prec) + 1 <= emax - prec ->
  exists m e, binary_round_aux prec emax sx mx ex lx = S754_finite sx m e /\
              Z.pos (digits2_pos m) = prec /\
              ex + (Zdigits2 mx - prec) <= e <= ex + (Zdigits2 mx - prec) + 1.
Proof.
  intros Hmx Hd Hmin Hmax. unfold binary_round_aux.
  destruct (shr_fexp_pos prec emax Hprec mx ex lx Hmx ltac:(lia)) as [[H1lo H1hi] H1e].
  pose proof (shr_fexp_normal mx ex lx Hmx ltac:(lia) Hd) as H1n.
  destruct (shr_fexp prec emax mx ex lx) as [mrs1 e1]. simpl in H1lo, H1hi, H1e, H1n.
  pose proof (round_nearest_even_bounds (shr_m mrs1) (loc_of_shr_record mrs1)) as Hr.
  set (q := round_nearest_even (shr_m mrs1) (loc_of_shr_record mrs1)) in *.
  assert (Hq : 0 < q) by lia.
  assert (Hp2 : 2 ^ prec = 2 * 2 ^ (prec - 1)).
  { replace prec with (Z.succ (prec - 1)) at 1 by lia. apply Z.pow_succ_r. lia. }
  assert (Hdq : Zdigits2 q = prec \/ (Zdigits2 q = prec + 1 /\ q = 2 ^ prec)).
  { destruct (Z.eq_dec q (2 ^ prec)) as [E|E].
    - right. split; [|exact E]. apply Zdigits2_eq; [lia|].
      replace (prec + 1 - 1) with prec by lia. rewrite E. split; [lia|].
      rewrite Z.pow_add_r, Z.pow_1_r by lia. lia.
    - left. apply Zdigits2_eq; lia. }
  assert (Hdq' : prec <= Zdigits2 q <= prec + 1) by lia.
  destruct (shr_fexp_pos prec emax Hprec q e1 loc_Exact Hq ltac:(lia)) as [[H2lo H2hi] H2e].
  pose proof (shr_fexp_normal q e1 loc_Exact Hq ltac:(lia) ltac:(lia)) as H2n.
  destruct (shr_fexp prec emax q e1 loc_Exact) as [mrs2 e2]. simpl in H2lo, H2hi, H2e, H2n.
  destruct (shr_m mrs2) as [|m2|m2] eqn:Em; try lia.
  assert (He2 : (e2 <=? emax - prec) = true) by (apply Z.leb_le; lia).
  rewrite He2. exists m2, e2. split; [reflexivity|]. split; [|lia].
  change (Z.pos (digits2_pos m2)) with (Zdigits2 (Z.pos m2)).
  apply Zdigits2_eq; lia.
Qed.

(** Converting a positive integer below [2 ^ (emax - 1)] gives a normal
    number: a mantissa of exactly [prec] digits. *)
Lemma binary_normalize_normal z :
  0 < z -> Zdigits2 z < emax ->
  exists m e, binary_normalize prec emax z 0 false = S754_finite false m e /\
              Z.pos (digits2_pos m) = prec /\
              Zdigits2 z - prec <= e <= Z.max 0 (Zdigits2 z - prec) + 1.
Proof.
  intros Hz Hd. destruct z as [|p|p]; try lia. simpl Zdigits2 in *.
  simpl binary_normalize. unfold binary_round, shl_align, fexp.
  assert (Hemin : SpecFloat.emin prec emax = 3 - emax - prec) by reflexivity.
  rewrite Z.max_l by lia.
  replace (Z.pos (digits2_pos p) + 0 - prec - 0) with (Z.pos (digits2_pos p) - prec) by lia.
  destruct (Z.pos (digits2_pos p) - prec) as [|k|k] eqn:Ek.
  - destruct (binary_round_aux_normal false (Z.pos p) 0 loc_Exact) as (m & e & H & Hm & He);
      simpl Zdigits2; try lia. exists m, e. simpl Zdigits2 in He. repeat split; try assumption; lia.
  - destruct (binary_round_aux_normal false (Z.pos p) 0 loc_Exact) as (m & e & H & Hm & He);
      simpl Zdigits2; try lia. exists m, e. simpl Zdigits2 in He. repeat split; try assumption; lia.
  - destruct (binary_round_aux_normal false (Z.pos (Pos.iter xO p k))
                (Z.pos (digits2_pos p) - prec) loc_Exact) as (m & e & H & Hm & He);
      simpl Zdigits2; rewrite ?digits2_pos_iter_xO, ?Pos2Z.inj_add; try lia.
    exists m, e. simpl Zdigits2 in He. rewrite digits2_pos_iter_xO, Pos2Z.inj_add in He.
    repeat split; try assumption; lia.
Qed.

End NormalFacts.

(** ** Division by 1024 * 1024 *)

Lemma float_MB : float_of_Z (1024 * 1024) = S754_finite false 8388608 (-3).
Proof. vm_compute. reflexivity. Qed.

Lemma div_core_MB m e :
  Z.pos (digits2_pos m) = 24 -> -128 <= e ->
  SFdiv_core_binary fprec femax (Z.pos m) e 8388608 (-3) = (Z.pos m~0, e - 21, loc_Exact).
Proof.
  intros Hd He. unfold SFdiv_core_binary, fprec, femax. cbv zeta.
  change (Zdigits2 8388608) with 24.
  change (Zdigits2 (Z.pos m)) with (Z.pos (digits2_pos m)). rewrite Hd.
  assert (Hf : fexp 24 128 (24 + e - (24 + -3)) = e - 21)
    by (unfold fexp, SpecFloat.emin; lia).
  rewrite Hf.
  replace (Z.min (e - 21) (e - -3)) with (e - 21) by lia.
  replace (e - -3 - (e - 21)) with 24 by lia.
  cbv iota. rewrite Z.shiftl_mul_pow2 by lia.
  assert (Hq : Z.div_eucl (Z.pos m * 2 ^ 24) 8388608 = (Z.pos m~0, 0)).
  { pose proof (Z.div_eucl_eq (Z.pos m * 2 ^ 24) 8388608 ltac:(lia)) as Heq.
    pose proof (Z.mod_pos_bound (Z.pos m * 2 ^ 24) 8388608 ltac:(lia)) as Hb.
    unfold Z.modulo in Hb.
    destruct (Z.div_eucl (Z.pos m * 2 ^ 24) 8388608) as [q r].
    change (2 ^ 24) with (2 * 8388608) in Heq.
    assert (q = 2 * Z.pos m /\ r = 0) as [-> ->] by nia.
    reflexivity. }
  rewrite Hq. reflexivity.
Qed.

(** Dividing a normal binary32 number by 1024 * 1024 lowers its exponent
    by 20 and leaves its mantissa: no rounding takes place. *)
Lemma fdiv_MB s m e :
  Z.pos (digits2_pos m) = 24 -> -128 <= e <= 124 ->
  fdiv (S754_finite s m e) (float_of_Z (1024 * 1024)) = S754_finite s m (e - 20).
Proof.
  intros Hd He. rewrite float_MB. unfold fdiv. cbn [SFdiv].
  rewrite (div_core_MB m e Hd ltac:(lia)).
  rewrite xorb_false_r.
  unfold binary_round_aux, shr_fexp, fprec, femax.
  simpl Zdigits2. cbn [digits2_pos]. rewrite Pos2Z.inj_succ, Hd.
  assert (Hf1 : fexp 24 128 (Z.succ 24 + (e - 21)) - (e - 21) = 1)
    by (unfold fexp, SpecFloat.emin; lia).
  rewrite Hf1. cbn [shr_record_of_loc shr SpecFloat.iter_pos shr_1 orb
                    shr_m loc_of_shr_record round_nearest_even].
  simpl Zdigits2. rewrite Hd.
  assert (Hf2 : fexp 24 128 (24 + (e - 21 + 1)) - (e - 21 + 1) = 0)
    by (unfold fexp, SpecFloat.emin; lia).
  rewrite Hf2. cbn [shr_record_of_loc shr shr_m].
  assert (Hle : (e - 21 + 1 <=? 128 - 24) = true) by (apply Z.leb_le; lia).
  rewrite Hle. f_equal. lia.
Qed.

(** X22. [GetMemoryUsageMB] never fails: when the memory status cannot be
    read it returns 0 and sets both out-parameters to 0; it also returns 0
    when nothing is in use; and what it returns is never a NaN and never
    below 0. *)
Theorem X22_memory_usage_total :
  GetMemoryUsageMB None = (S754_zero false, 0, 0) /\
  (forall total, GetMemoryUsageMB (Some (mkMemoryStatus total total))
                 = (S754_zero false, total, total)) /\
  (forall os, is_nan (fst (fst (GetMemoryUsageMB os))) = false /\
              SFltb (fst (fst (GetMemoryUsageMB os))) (S754_zero false) = false).
Proof.
  split; [reflexivity|]. split.
  - intros total. unfold GetMemoryUsageMB. simpl. rewrite Z.sub_diag. reflexivity.
  - intros os. unfold GetMemoryUsageMB. cbn [fst].
    set (used := wrap64 _).
    assert (Hs : has_sign false (fdiv (float_of_Z used) (float_of_Z (1024 * 1024)))).
    { change false with (xorb false false) at 1. apply SFdiv_sign.
      - apply binary_normalize_sign. apply wrap64_range.
      - rewrite float_MB. eauto. }
    destruct (fdiv _ _) as [s|s| |s m e]; simpl in Hs; subst; try contradiction; auto.
Qed.

(** X23. With [avail < total], the value returned is the number of bytes
    in use converted to binary32 with its exponent lowered by 20: the
    division by 1024 * 1024 adds no rounding error to that of the
    conversion. *)
Theorem X23_memory_usage_exact :
  forall total avail : Z,
    0 <= avail -> avail < total -> total < two64 ->
    exists m e,
      float_of_Z (total - avail) = S754_finite false m e /\
      GetMemoryUsageMB (Some (mkMemoryStatus total avail))
      = (S754_finite false m (e - 20), total, avail).
Proof.
  intros total avail H0 H1 H2.
  assert (Hu : 0 < total - avail < two64) by lia.
  destruct (binary_normalize_normal fprec femax ltac:(unfold fprec; lia)
              ltac:(unfold fprec, femax; lia) (total - avail)) as (m & e & Hf & Hm & He).
  - lia.
  - pose proof (Zdigits2_ull (total - avail) ltac:(lia) ltac:(lia)). unfold femax. lia.
  - exists m, e. split; [exact Hf|].
    unfold GetMemoryUsageMB. cbn [ullTotalPhys ullAvailPhys].
    rewrite wrap64_sub_ge by lia. unfold float_of_Z at 1. rewrite Hf.
    pose proof (Zdigits2_ull (total - avail) ltac:(lia) ltac:(lia)) as Hd.
    pose proof (Zdigits2_pos (total - avail) ltac:(lia)) as Hd0.
    rewrite fdiv_MB; [reflexivity|exact Hm|unfold fprec in He; lia].
Qed.

Lemma X23_memory_usage_exact_witness :
  exists m e,
    float_of_Z (8589934592 - 3221225472) = S754_finite false m e /\
    GetMemoryUsageMB (Some (mkMemoryStatus 8589934592 3221225472))
    = (S754_finite false m (e - 20), 8589934592, 3221225472).
Proof. apply X23_memory_usage_exact; unfold two64; lia. Defined.

Section LiveFilter.
Context {loc : CLocale} {srt : StdSort}.

(** X24. The filter is in force while it is typed: the iteration that
    reads a printable character already lists by the text with that
    character; and the iteration that reads Enter lists and samples exactly
    what it would have with no key at all, only the prompt line goes. *)
Theorem X24_filter_applies_while_typing :
  forall (w : World) (t : Tick),
    console w = [] -> searchMode (view w) = true -> showHelp (view w) = false ->
    (forall ch, iswprint ch = true ->
       ch <> KEY_ESC -> ch <> KEY_ENTER -> ch <> KEY_BACKSPACE ->
       exists w' c rows,
         cycle w (press ch t)
           = Some (w', TableFrame c (sortByCpu (view w))
                                  (searchFilter (view w) ++ [to_wchar ch]) true rows) /\
         filtered w' = apply_filter (searchFilter (view w) ++ [to_wchar ch])
                                    (allProcesses w') /\
         rows = visible_rows (scroll (view w)) (filtered w')) /\
    (exists w1 w2 c rows,
        cycle w (press KEY_ENTER t)
          = Some (w1, TableFrame c (sortByCpu (view w)) (searchFilter (view w)) false rows) /\
        cycle w (idle_tick t)
          = Some (w2, TableFrame c (sortByCpu (view w)) (searchFilter (view w)) true rows) /\
        allProcesses w1 = allProcesses w2 /\ filtered w1 = filtered w2 /\
        baselines w1 = baselines w2 /\ sysprev w1 = sysprev w2).
Proof.
  intros w t Hc Hs Hh. split.
  - intros ch Hp Hesc Hent Hbs. apply Z.eqb_neq in Hesc, Hent, Hbs.
    unfold cycle. rewrite Hc. simpl app. unfold poll_key. rewrite Hs.
    unfold search_key. rewrite Hesc, Hent, Hbs, Hp. cbn [showHelp sortByCpu searchFilter
      searchMode scroll os_table os_times press]. rewrite Hh, Hs.
    destruct (GetProcesses _ _ _) as [all b]. destruct (GetSystemCPU _ _) as [c sp].
    eexists. eexists. eexists. split; [reflexivity|]. split; reflexivity.
  - unfold cycle. rewrite Hc. cbn [app typed press idle_tick os_table os_times].
    unfold poll_key. rewrite Hs.
    unfold search_key. change (KEY_ENTER =? KEY_ESC) with false.
    change (KEY_ENTER =? KEY_ENTER) with true.
    cbn [showHelp sortByCpu searchFilter searchMode scroll].
    rewrite Hh.
    destruct (GetProcesses _ _ _) as [all b]. destruct (GetSystemCPU _ _) as [c sp].
    rewrite ?Hs.
    eexists. eexists. eexists. eexists.
    split; [reflexivity|]. split; [reflexivity|]. simpl. auto.
Qed.

End LiveFilter.

(** ** The further properties at work *)

(** X2 at work on a table of two entries, one of which cannot be opened. *)
Lemma X2_every_entry_listed_witness :
  Permutation [(4, [97]); (8, [98])]
     (map (fun p => (pid p, name p))
          (fst (@GetProcesses insertion_std_sort (mkBaselines ∅ ∅) table_early true))) /\
  length (fst (@GetProcesses insertion_std_sort (mkBaselines ∅ ∅) table_early true)) = 2%nat.
Proof.
  apply (@X2_every_entry_listed insertion_std_sort (mkBaselines ∅ ∅) table_early true
           [timed_entry 4 [97] 4096 10 20; mkProcEntry 8 [98] None]
           insertion_sort_contract eq_refl).
Defined.

(** X3 at work: the baseline of process 4 after a first call. *)
Lemma X3_baselines_after_call_witness :
  baseline_of (snd (@GetProcesses insertion_std_sort (mkBaselines ∅ ∅) table_early true)) 4
  = Some (proc_now (filetime_of 10) (filetime_of 20), table_now table_early).
Proof.
  apply (proj1 (@X3_baselines_after_call insertion_std_sort (mkBaselines ∅ ∅) table_early true
                  [timed_entry 4 [97] 4096 10 20; mkProcEntry 8 [98] None] eq_refl
                  ltac:(repeat constructor; simpl; intuition discriminate))
               (timed_entry 4 [97] 4096 10 20) (filetime_of 10) (filetime_of 20)).
  - left. reflexivity.
  - reflexivity.
Defined.

(** X4 at work. *)
Lemma X4_first_call_all_zero_witness :
  Forall (fun p => cpu p = S754_zero false)
         (fst (@GetProcesses insertion_std_sort (mkBaselines ∅ ∅) table_early true)).
Proof. apply (@X4_first_call_all_zero insertion_std_sort). apply insertion_sort_contract. Defined.

(** X5 at work: process 4 used 60 units of CPU time while the system used
    500: 12%. *)
Lemma X5_rate_over_two_calls_witness :
  exists p,
    In p (fst (@GetProcesses insertion_std_sort
                 (snd (@GetProcesses insertion_std_sort (mkBaselines ∅ ∅) table_early true))
                 table_late false)) /\
    pid p = 4 /\ cpu p = double_of_Z 12.
Proof.
  destruct (@X5_rate_over_two_calls insertion_std_sort (mkBaselines ∅ ∅)
              table_early table_late true false
              [timed_entry 4 [97] 4096 10 20; mkProcEntry 8 [98] None]
              [timed_entry 4 [97] 8192 40 50; mkProcEntry 8 [98] None]
              (timed_entry 4 [97] 4096 10 20) (timed_entry 4 [97] 8192 40 50)
              (filetime_of 10) (filetime_of 20) (filetime_of 40) (filetime_of 50)
              insertion_sort_contract eq_refl eq_refl)
    as (p & Hin & Hpid & Hcpu).
  - repeat constructor; simpl; intuition discriminate.
  - repeat constructor; simpl; intuition discriminate.
  - left. reflexivity.
  - left. reflexivity.
  - reflexivity.
  - reflexivity.
  - reflexivity.
  - reflexivity.
  - reflexivity.
  - vm_compute. discriminate.
  - exists p. split; [exact Hin|]. split; [exact Hpid|]. rewrite Hcpu.
    vm_compute. reflexivity.
Defined.

(** X6 at work. *)
Lemma X6_rates_not_negative_witness :
  Forall (fun p => is_nan (cpu p) = false /\ SFltb (cpu p) (S754_zero false) = false)
         (fst (@GetProcesses insertion_std_sort (mkBaselines ∅ ∅) table_late true)).
Proof. apply (@X6_rates_not_negative insertion_std_sort). apply insertion_sort_contract. Defined.

(** X7 at work. *)
Lemma X7_same_time_all_zero_witness :
  Forall (fun p => cpu p = S754_zero false)
         (fst (@GetProcesses insertion_std_sort
                 (snd (@GetProcesses insertion_std_sort (mkBaselines ∅ ∅) table_late true))
                 table_late true)).
Proof. apply (@X7_same_time_all_zero insertion_std_sort). apply insertion_sort_contract. Defined.

(** X8 at work: seventeen rows throughout; Down three times, then Up. *)
Lemma X8_scroll_in_range_while_rows_steady_witness :
  Forall (fun w' => scroll_in_range (scroll (view w')) 17)
         (@worlds ascii_locale insertion_std_sort seventeen_world
            [press_arrow KEY_DOWN seventeen_tick; press_arrow KEY_DOWN seventeen_tick;
             press_arrow KEY_DOWN seventeen_tick; press_arrow KEY_UP seventeen_tick]).
Proof.
  apply (@X8_scroll_in_range_while_rows_steady ascii_locale insertion_std_sort _
           seventeen_world 17%nat).
  - vm_compute. reflexivity.
  - unfold scroll_in_range, page_size. vm_compute. split; discriminate.
  - vm_compute. repeat constructor.
Defined.

(** X9 at work: "a", then [b], then Backspace. *)
Lemma X9_type_then_backspace_witness :
  exists v1,
    @poll_key ascii_locale 17 searching_view [98; KEY_BACKSPACE] = Some (v1, [KEY_BACKSPACE]) /\
    searchFilter v1 = [97] ++ [to_wchar 98] /\
    @poll_key ascii_locale 17 v1 [KEY_BACKSPACE] = Some (searching_view, []).
Proof.
  apply (proj1 (@X9_type_then_backspace ascii_locale 17 17 searching_view 98 []
                  eq_refl eq_refl ltac:(discriminate) ltac:(discriminate)
                  ltac:(discriminate))).
Defined.

(** X10 at work: Tab in search mode. *)
Lemma X10_search_mode_frame_witness :
  exists v', @poll_key ascii_locale 17 searching_view [KEY_TAB] = Some (v', []) /\
    sortByCpu v' = true /\ showHelp v' = false /\ scroll v' = 0 /\
    (searchMode v' = false <-> KEY_TAB = KEY_ESC \/ KEY_TAB = KEY_ENTER).
Proof. apply (@X10_search_mode_frame ascii_locale 17 searching_view KEY_TAB [] eq_refl). Defined.

(** X11 at work: the Up arrow in search mode. *)
Lemma X11_arrow_in_search_mode_witness :
  exists v1 v2,
    @poll_key ascii_locale 17 searching_view [224; KEY_UP] = Some (v1, [KEY_UP]) /\
    @poll_key ascii_locale 17 v1 [KEY_UP] = Some (v2, []) /\
    scroll v2 = 0 /\ searchMode v2 = true /\ searchFilter v2 = searchFilter v1 ++ [KEY_UP].
Proof.
  apply (@X11_arrow_in_search_mode ascii_locale ascii_locale_printable 17 17
           searching_view 224 KEY_UP [] eq_refl (or_intror eq_refl) (or_introl eq_refl)).
Defined.

(** X12 at work from the help screen. *)
Lemma X12_search_under_help_witness :
  exists w',
    @run ascii_locale insertion_std_sort help_world
      [press KEY_SLASH seventeen_tick; press KEY_h seventeen_tick] = Some w' /\
    showHelp (view w') = true /\ searchMode (view w') = true /\
    searchFilter (view w') = [KEY_h] /\
    baselines w' = baselines help_world /\ sysprev w' = sysprev help_world /\
    filtered w' = filtered help_world.
Proof.
  apply (@X12_search_under_help ascii_locale insertion_std_sort ascii_locale_printable
           help_world seventeen_tick seventeen_tick eq_refl eq_refl eq_refl).
Defined.


(** X14 at work on the script of the scroll scenario. *)
Lemma X14_loop_invariant_witness :
  exists w,
    @run ascii_locale insertion_std_sort world_init shrinking_script = Some w /\
    0 <= scroll (view w) /\
    dom (lastProcTime (baselines w)) = dom (lastSysTime (baselines w)).
Proof.
  destruct (@run ascii_locale insertion_std_sort world_init shrinking_script)
    as [w|] eqn:E; [|vm_compute in E; discriminate E].
  exists w. split; [reflexivity|].
  apply (@X14_loop_invariant ascii_locale insertion_std_sort shrinking_script w E).
Defined.

(** X18 at work on the first table drawn for the seventeen processes. *)
Lemma X18_table_frame_witness :
  exists w' c sk ft pr rows,
    @cycle ascii_locale insertion_std_sort world_init seventeen_tick
      = Some (w', TableFrame c sk ft pr rows) /\
    (length rows <= 15)%nat /\
    (forall p, In p rows -> In p (allProcesses w') /\ @contains_ci ascii_locale (name p) ft).
Proof.
  destruct (@cycle ascii_locale insertion_std_sort world_init seventeen_tick)
    as [[w' f]|] eqn:E; [|vm_compute in E; discriminate E].
  destruct f as [|c sk ft pr rows]; [vm_compute in E; discriminate E|].
  destruct (@X18_table_frame ascii_locale insertion_std_sort _ _ w' c sk ft pr rows
              insertion_sort_contract E) as (_ & _ & _ & Hlen & Hin & _).
  exists w', c, sk, ft, pr, rows. split; [reflexivity|]. split; [exact Hlen|exact Hin].
Defined.

(** X24 at work: Enter in search mode against an idle iteration. *)
Lemma X24_filter_applies_while_typing_witness :
  exists w1 w2 c rows,
    @cycle ascii_locale insertion_std_sort searching_world (press KEY_ENTER seventeen_tick)
      = Some (w1, TableFrame c true [97] false rows) /\
    @cycle ascii_locale insertion_std_sort searching_world (idle_tick seventeen_tick)
      = Some (w2, TableFrame c true [97] true rows) /\
    allProcesses w1 = allProcesses w2 /\ filtered w1 = filtered w2 /\
    baselines w1 = baselines w2 /\ sysprev w1 = sysprev w2.
Proof.
  apply (proj2 (@X24_filter_applies_while_typing ascii_locale insertion_std_sort
                  searching_world seventeen_tick eq_refl eq_refl eq_refl)).
Defined.

(** ** Sorting and the sort key, on the loop *)

Section SortToggle.
Context {loc : CLocale} {srt : StdSort}.




End SortToggle.


(** With a sort that leaves ties the other way round the same three
    iterations end on 2 above 1: what comes back after two Tab presses is
    decided by how the library orders ties. *)
Lemma toggle_order_depends_on_sort :
  exists w3,
    @run ascii_locale reversing_std_sort (toggle_world ascii_locale reversing_std_sort)
       [toggle_tick; press KEY_TAB toggle_tick; press KEY_TAB toggle_tick] = Some w3 /\
    sortByCpu (view w3) = true /\
    map pid (allProcesses w3) = [2; 1].
Proof.
  eexists. split; [vm_compute; reflexivity|]. split; reflexivity.
Qed.

